(** * BAC0: recurring tasks, the network object and the basic script

    A shallow embedding of [BAC0/tasks/TaskManager.py] (the [Task] class, its
    registry and [stopAllTasks]), of [BAC0/scripts/Lite.py] (the liveness
    sweep [ping_registered_devices], the registries of devices and trends,
    the local address, [devices], [disconnect] and [__getitem__]) and of
    [BAC0/scripts/BasicScript.py], followed by the properties established
    about them.

    Conventions.
    - Python objects live in a heap indexed by their identity ([id(obj)]);
      lists of objects are lists of identities, so that aliasing is visible.
    - Timestamps and delays are rationals: the code only adds, subtracts,
      halves and compares them.  The rounding of floating-point sums is
      not modelled: an equation between numbers tells which expression the
      code evaluates, and no order between numbers is stated that rounding
      could reverse.
    - Code that may raise returns an [outcome]; opaque collaborators (the
      awaited payload, [time.time()], the device operations, [read], the
      BACnet stack) are parameters of the sections that use them.
    - Calls to the logger and to [print] are not modelled. *)

From Stdlib Require Import QArith Lqa Ascii.
From stdpp Require Import gmap strings list functions pretty.

(** ** Exceptions and results *)

Inductive exn :=
| AttributeError
| NotImplementedError
| TypeError
| CancelledError
| NumerousPingFailures
| NoResponseFromController
| Timeout
| UnrecognizedService
| OtherError (msg : string).

#[global] Instance exn_eq_dec : EqDecision exn.
Proof. solve_decision. Defined.

Inductive outcome (A : Type) :=
| Ret (a : A)
| Raise (e : exn).
Arguments Ret {A} a.
Arguments Raise {A} e.

(** Comparisons on numbers, as booleans. *)
Definition Qgt_bool (x y : Q) : bool := negb (Qle_bool x y).
Definition Qge_bool (x y : Q) : bool := Qle_bool y x.

(** * TaskManager.py *)

Module TaskManager.

(** Identity of a Python object, and handle of an [asyncio.Task]. *)
Abbreviation oid := positive (only parsing).
Abbreviation handle := nat (only parsing).

(** The classes of the [Task] hierarchy: [Task] itself, [OneShotTask]
    (which overrides only [__init__]) and user subclasses, which may or may
    not override the virtual [task] method. *)
Inductive klass :=
| KTask
| KOneShotTask
| KSubclass (cname : string) (overrides : bool).

#[global] Instance klass_eq_dec : EqDecision klass.
Proof. solve_decision. Defined.

Definition overrides_task (k : klass) : bool :=
  match k with
  | KTask | KOneShotTask => false
  | KSubclass _ b => b
  end.

(** A callable is known by its name, an argument by its text, and keyword
    parameters as a dictionary of texts. *)
Definition callable := string.
Definition pyarg := string.
Definition kwargs := list (string * string).

(** The [fn] parameter of [Task.__init__]: absent, a callable, or a pair
    [(fn, args)]. *)
Inductive fn_param :=
| FnNone
| FnCallable (f : callable)
| FnTuple (f : option callable) (a : option pyarg).

Record Task := mkTask {
  id : oid;
  klass_of : klass;
  name : string;
  fn : option callable;
  args : option pyarg;
  delay : Q;
  previous_execution : option Q;
  average_execution_delay : Q;
  average_latency : Q;
  next_execution : Q;
  execution_time : Q;
  count : nat;
  _kwargs : option kwargs;
  _task : option handle;
  aio_task : option handle
}.

(** [Task.__init__].  [now] is the value of [time.time()] and [rnd] the
    value of [random()] at construction. *)
Definition Task_init (self : oid) (k : klass) (fn : fn_param)
    (name : option string) (delay : Q) (now rnd : Q) : Task :=
  let '(f, a) :=
    match fn with
    | FnTuple f a => (f, a)
    | FnCallable f => (Some f, None)
    | FnNone => (None, None)
    end in
  {| id := self;
     klass_of := k;
     name := match name with
             | Some n => n
             | None => "Task_" +:+ pretty (Zpos self)
             end;
     fn := f;
     args := a;
     delay := if Qgt_bool delay 0
              then (if Qge_bool delay 5 then delay else 5)
              else 0;
     previous_execution := None;
     average_execution_delay := 0;
     average_latency := 0;
     next_execution := now + delay + rnd * 10;
     execution_time := 0;
     count := 0;
     _kwargs := None;
     _task := None;
     aio_task := None |}.

(** [OneShotTask.__init__(self, fn=None, args=None, name="Oneshot")]: the
    body is [super().__init__(name=name, delay=0)]. *)
Definition OneShotTask_default_name : string := "Oneshot".

Definition OneShotTask_init (self : oid) (k : klass) (fn : fn_param)
    (args : option pyarg) (name : option string) (now rnd : Q) : Task :=
  Task_init self k FnNone name 0 now rnd.

(** [Task.__lt__] and [Task.__eq__] (against another Task, or a bare id). *)
Definition lt (self other : Task) : bool :=
  Qgt_bool (next_execution self) (next_execution other).

Definition eq_task (self other : Task) : bool :=
  bool_decide (id self = id other).

Definition eq_id (self : Task) (other : oid) : bool :=
  bool_decide (id self = other).

(** *** Field updates *)

Definition set_count (n : nat) (t : Task) : Task :=
  mkTask (id t) (klass_of t) (name t) (fn t) (args t) (delay t)
    (previous_execution t) (average_execution_delay t) (average_latency t)
    (next_execution t) (execution_time t) n (_kwargs t) (_task t) (aio_task t).

Definition set_average_latency (q : Q) (t : Task) : Task :=
  mkTask (id t) (klass_of t) (name t) (fn t) (args t) (delay t)
    (previous_execution t) (average_execution_delay t) q
    (next_execution t) (execution_time t) (count t) (_kwargs t) (_task t)
    (aio_task t).

Definition set_average_execution_delay (q : Q) (t : Task) : Task :=
  mkTask (id t) (klass_of t) (name t) (fn t) (args t) (delay t)
    (previous_execution t) q (average_latency t)
    (next_execution t) (execution_time t) (count t) (_kwargs t) (_task t)
    (aio_task t).

Definition set_execution_time (q : Q) (t : Task) : Task :=
  mkTask (id t) (klass_of t) (name t) (fn t) (args t) (delay t)
    (previous_execution t) (average_execution_delay t) (average_latency t)
    (next_execution t) q (count t) (_kwargs t) (_task t) (aio_task t).

Definition set_previous_execution (q : option Q) (t : Task) : Task :=
  mkTask (id t) (klass_of t) (name t) (fn t) (args t) (delay t)
    q (average_execution_delay t) (average_latency t)
    (next_execution t) (execution_time t) (count t) (_kwargs t) (_task t)
    (aio_task t).

Definition set_next_execution (q : Q) (t : Task) : Task :=
  mkTask (id t) (klass_of t) (name t) (fn t) (args t) (delay t)
    (previous_execution t) (average_execution_delay t) (average_latency t)
    q (execution_time t) (count t) (_kwargs t) (_task t) (aio_task t).

Definition set_aio_task (h : option handle) (t : Task) : Task :=
  mkTask (id t) (klass_of t) (name t) (fn t) (args t) (delay t)
    (previous_execution t) (average_execution_delay t) (average_latency t)
    (next_execution t) (execution_time t) (count t) (_kwargs t) (_task t) h.

(** *** The payload *)

(** What [execute] awaits: [self.fn(self.args)], [self.fn()], or the virtual
    method [self.task] with the keyword parameters [self._kwargs], if any. *)
Inductive call :=
| CallFnArgs (f : callable) (a : pyarg)
| CallFn (f : callable)
| CallTask (self : oid) (kw : option kwargs).

(** One entry per payload invocation, tagged with the loop that made it. *)
Inductive event :=
| ERun (h : handle) (c : call).

Definition ev_handle (e : event) : handle :=
  match e with ERun h _ => h end.

Definition runs_of (h : handle) (tr : list event) : nat :=
  length (filter (fun e => ev_handle e = h) tr).

(** Truth value of [self.previous_execution]: [None] and [0.0] are false. *)
Definition truthy_time (p : option Q) : bool :=
  match p with
  | None => false
  | Some q => negb (Qeq_bool q 0)
  end.

(** *** Coroutines on the event loop *)

(** Where the coroutine [execute()] wrapped by an [asyncio.Task] stands:
    created but not yet run, suspended in [asyncio.sleep], or finished. *)
Inductive coro_pc :=
| Created
| Sleeping
| Returned
| Raised (e : exn)
| Cancelled.

Definition done_pc (p : coro_pc) : bool :=
  match p with
  | Created | Sleeping => false
  | _ => true
  end.

Record aio := mkAio {
  coro_self : oid;
  pc : coro_pc;
  must_cancel : bool
}.

(** The process state: the heap of Task objects, the class attribute
    [Task.tasks], the subclasses on which [clean_tasklist] has bound a
    [tasks] attribute of their own, the [asyncio.Task]s created so far
    (a handle is an index), the outside world, and the payload invocations
    made so far. *)
Record state (W : Type) := mkState {
  heap : gmap oid Task;
  tasks : list oid;
  shadowed : list klass;
  loops : list aio;
  world : W;
  trace : list event
}.
Arguments mkState {W}.
Arguments heap {W}.
Arguments tasks {W}.
Arguments shadowed {W}.
Arguments loops {W}.
Arguments world {W}.
Arguments trace {W}.

Definition set_heap {W} (hp : gmap oid Task) (s : state W) : state W :=
  mkState hp (tasks s) (shadowed s) (loops s) (world s) (trace s).

Definition set_tasks {W} (l : list oid) (s : state W) : state W :=
  mkState (heap s) l (shadowed s) (loops s) (world s) (trace s).

Definition set_shadowed {W} (l : list klass) (s : state W) : state W :=
  mkState (heap s) (tasks s) l (loops s) (world s) (trace s).

Definition set_loops {W} (l : list aio) (s : state W) : state W :=
  mkState (heap s) (tasks s) (shadowed s) l (world s) (trace s).

Section Scheduler.

Context {W : Type}.

(** [time.time()], and the effect and result of awaiting a payload.  A
    payload is awaited in one step: a cancellation that reaches the
    coroutine while the payload is suspended shows as the payload raising
    [CancelledError]. *)
Variable time : W -> Q * W.
Variable run : call -> W -> outcome unit * W.

(** The [if self.fn and self.args is not None: ... elif self.fn: ... else:]
    chain shared by both branches of [execute].  [Task.task] itself raises
    [NotImplementedError]; it takes no keyword parameter, so calling it with
    some raises [TypeError]. *)
Definition payload_call (t : Task) : call :=
  match fn t, args t with
  | Some f, Some a => CallFnArgs f a
  | Some f, None => CallFn f
  | None, _ => CallTask (id t) (_kwargs t)
  end.

Definition await_call (t : Task) (c : call) (w : W) : outcome unit * W :=
  match c with
  | CallTask _ kw =>
      if overrides_task (klass_of t) then run c w
      else match kw with
           | Some (_ :: _) => (Raise TypeError, w)
           | _ => (Raise NotImplementedError, w)
           end
  | _ => run c w
  end.

Definition invoke_payload (t : Task) (w : W) : outcome unit * W :=
  await_call t (payload_call t) w.

(** One pass through the body of [while True:] in [execute], from
    [self.count += 1] to the point where [asyncio.sleep] suspends.  The
    result is the Task as mutated, the world, and whether the payload
    raised. *)
Definition iteration (t : Task) (w : W) : outcome unit * Task * W :=
  let t := set_count (S (count t)) t in
  let '(_start_time, w) := time w in
  let t := set_average_latency
             ((average_latency t + (_start_time - next_execution t)) / 2)%Q t in
  let '(r, w) := invoke_payload t w in
  match r with
  | Raise e => (Raise e, t, w)
  | Ret _ =>
      let t :=
        if truthy_time (previous_execution t)
        then
          let _total := (average_execution_delay t
                         + (_start_time - default 0 (previous_execution t)))%Q in
          set_average_execution_delay (_total / 2)%Q t
        else set_average_execution_delay (delay t) t in
      let '(now, w) := time w in
      let t := set_execution_time (now - _start_time)%Q t in
      let t := set_previous_execution (Some _start_time) t in
      let '(now, w) := time w in
      let t := set_next_execution (now + delay t)%Q t in
      (Ret (), t, w)
  end.

(** The [else:  # one shot] branch of [execute]. *)
Definition one_shot (t : Task) (w : W) : outcome unit * Task * W :=
  let '(r, w) := invoke_payload t w in (r, t, w).

(** [execute()] run from its start up to its first suspension in
    [asyncio.sleep], or to its end. *)
Definition execute (t : Task) (w : W) : outcome unit * Task * W :=
  if Qgt_bool (delay t) 0 then iteration t w else one_shot t w.

(** The coroutine of [execute] advanced from one suspension point to the
    next: the whole of [execute] when it was just created, one more pass of
    the loop when it was sleeping. *)
Definition advance (p : coro_pc) (t : Task) (w : W) : coro_pc * Task * W :=
  match p with
  | Created =>
      let '(r, t', w') := execute t w in
      (match r with
       | Raise e => Raised e
       | Ret _ => if Qgt_bool (delay t) 0 then Sleeping else Returned
       end, t', w')
  | Sleeping =>
      let '(r, t', w') := iteration t w in
      (match r with
       | Raise e => Raised e
       | Ret _ => Sleeping
       end, t', w')
  | _ => (p, t, w)
  end.

(** The event loop resumes the coroutine of [asyncio.Task] [h].  A pending
    cancellation is delivered as [CancelledError] at the suspension point,
    which [execute] does not catch.  Otherwise the coroutine advances, and
    in doing so invokes the payload once. *)
Definition resume (h : handle) (s : state W) : state W :=
  match loops s !! h with
  | None => s
  | Some a =>
      if done_pc (pc a) then s
      else if must_cancel a
      then set_loops (<[h := mkAio (coro_self a) Cancelled false]> (loops s)) s
      else
        match heap s !! coro_self a with
        | None => s
        | Some t =>
            let '(pc', t', w') := advance (pc a) t (world s) in
            mkState (<[coro_self a := t']> (heap s)) (tasks s) (shadowed s)
              (<[h := mkAio (coro_self a) pc' false]> (loops s))
              w' (trace s ++ [ERun h (payload_call t)])
        end
  end.

(** [asyncio.Task.cancel()]: returns [False] on a finished task, otherwise
    arranges for [CancelledError] to be thrown into the coroutine. *)
Definition cancel (h : handle) (s : state W) : bool * state W :=
  match loops s !! h with
  | None => (false, s)
  | Some a =>
      if done_pc (pc a) then (false, s)
      else (true, set_loops (<[h := mkAio (coro_self a) (pc a) true]> (loops s)) s)
  end.

(** *** The registry and the life cycle of a Task *)

(** Evaluating [Task(fn, name, delay)] on an instance of class [k]: the
    object is allocated at an identity no other object has. *)
Definition new_task (k : klass) (fn : fn_param) (name : option string)
    (delay : Q) (now rnd : Q) (s : state W) : oid * state W :=
  let self := fresh (dom (heap s)) in
  (self, set_heap (<[self := Task_init self k fn name delay now rnd]> (heap s)) s).

Definition new_one_shot (k : klass) (fn : fn_param) (args : option pyarg)
    (name : option string) (now rnd : Q) (s : state W) : oid * state W :=
  let self := fresh (dom (heap s)) in
  (self,
   set_heap (<[self := OneShotTask_init self k fn args name now rnd]> (heap s)) s).

(** [Task.start]: [asyncio.create_task] wraps a new coroutine of [execute]
    in a new [asyncio.Task], which is stored in [self.aio_task]; then
    [self] is appended to [Task.tasks]. *)
Definition start (self : oid) (s : state W) : state W :=
  match heap s !! self with
  | None => s
  | Some t =>
      let h := length (loops s) in
      mkState (<[self := set_aio_task (Some h) t]> (heap s))
        (tasks s ++ [self]) (shadowed s)
        (loops s ++ [mkAio self Created false])
        (world s) (trace s)
  end.

(** [Task.stop]: [self._task.cancel()].  Looking [cancel] up on [None]
    raises [AttributeError]. *)
Definition stop (self : oid) (s : state W) : outcome unit * state W :=
  match heap s !! self with
  | None => (Raise (OtherError "no such object"), s)
  | Some t =>
      match _task t with
      | None => (Raise AttributeError, s)
      | Some h => (Ret (), snd (cancel h s))
      end
  end.

(** [Task.clean_tasklist], a class method: [cls.tasks = []].  On [Task] this
    rebinds the registry; on a subclass it binds an attribute of that
    subclass, which from then on hides [Task.tasks] there. *)
Definition clean_tasklist (cls : klass) (s : state W) : state W :=
  match cls with
  | KTask => set_tasks [] s
  | _ => set_shadowed (cls :: shadowed s) s
  end.

(** [Task.number_of_tasks], a class method: [len(cls.tasks)].  [start]
    appends to [Task.tasks] only, so a subclass's own list stays empty. *)
Definition number_of_tasks (cls : klass) (s : state W) : nat :=
  if bool_decide (cls ∈ shadowed s) then 0 else length (tasks s).

(** The loop [for each in Task.tasks: each.aio_task.cancel()]. *)
Fixpoint cancel_each (l : list oid) (s : state W) : outcome unit * state W :=
  match l with
  | [] => (Ret (), s)
  | each :: l' =>
      match heap s !! each with
      | None => (Raise (OtherError "no such object"), s)
      | Some t =>
          match aio_task t with
          | None => (Raise AttributeError, s)
          | Some h => cancel_each l' (snd (cancel h s))
          end
      end
  end.

Definition stopAllTasks (s : state W) : outcome bool * state W :=
  let '(r, s') := cancel_each (tasks s) s in
  match r with
  | Raise e => (Raise e, s')
  | Ret _ => (Ret true, clean_tasklist KTask s')
  end.

(** *** Histories *)

(** What a program and the event loop can do to the state. *)
Inductive op :=
| New (k : klass) (fn : fn_param) (name : option string) (delay now rnd : Q)
| NewOneShot (k : klass) (fn : fn_param) (args : option pyarg)
    (name : option string) (now rnd : Q)
| Start (self : oid)
| Stop (self : oid)
| StopAllTasks
| CleanTasklist (cls : klass)
| Resume (h : handle).

Definition apply_op (s : state W) (o : op) : state W :=
  match o with
  | New k fn name delay now rnd => snd (new_task k fn name delay now rnd s)
  | NewOneShot k fn args name now rnd =>
      snd (new_one_shot k fn args name now rnd s)
  | Start self => start self s
  | Stop self => snd (stop self s)
  | StopAllTasks => snd (stopAllTasks s)
  | CleanTasklist cls => clean_tasklist cls s
  | Resume h => resume h s
  end.

Definition run_ops (ops : list op) (s : state W) : state W :=
  foldl apply_op s ops.

Definition initial (w : W) : state W := mkState ∅ [] [] [] w [].

End Scheduler.

(** *** Notions used to state the properties *)

(** The coroutine behind handle [h] has finished, or a cancellation is
    pending on it. *)
Definition dead {W} (h : handle) (s : state W) : Prop :=
  exists a, loops s !! h = Some a /\ done_pc (pc a) || must_cancel a = true.

(** The Task objects held by [Task.tasks], and their ids. *)
Definition registry {W} (s : state W) : list Task :=
  omap (fun o => heap s !! o) (tasks s).

Definition registry_ids {W} (s : state W) : list oid :=
  map id (registry s).

(** The Tasks on which a history called [start] since [Task.tasks] was last
    rebound to an empty list, in call order; [acc] is the list so far. *)
Fixpoint started_since_clear (ops : list op) (acc : list oid) : list oid :=
  match ops with
  | [] => acc
  | Start self :: ops' => started_since_clear ops' (acc ++ [self])
  | StopAllTasks :: ops' => started_since_clear ops' []
  | CleanTasklist KTask :: ops' => started_since_clear ops' []
  | _ :: ops' => started_since_clear ops' acc
  end.

(** What holds of every state a history leads to: a Task sits in the heap
    under its own id and its [_task] field is [None]; every entry of the
    registry is a Task that [start] gave an [asyncio.Task]. *)
Record inv {W} (s : state W) : Prop := mkInv {
  inv_heap : forall o t, heap s !! o = Some t -> id t = o /\ _task t = None;
  inv_tasks : forall o, o ∈ tasks s ->
    exists t h, heap s !! o = Some t /\ aio_task t = Some h /\
                h < length (loops s)
}.

(** The [done] property: [self.aio_task.done()] when [start] has given the
    Task an [asyncio.Task], [False] otherwise. *)
Definition done {W} (self : oid) (s : state W) : bool :=
  match heap s !! self with
  | None => false
  | Some t =>
      match aio_task t with
      | None => false
      | Some h =>
          match loops s !! h with
          | Some a => done_pc (pc a)
          | None => false
          end
      end
  end.

(** The Task each [asyncio.Task] runs [execute] on, and the number of
    payload invocations made so far on behalf of Task [o], by any of its
    loops. *)
Definition owners {W} (s : state W) : list oid := coro_self <$> loops s.


(** A clock that never goes back: [clock] tells the time of a world,
    [time.time()] reads it, and neither reading it nor awaiting a payload
    lowers it. *)
Definition monotonic {W} (time : W -> Q * W)
    (run : call -> W -> outcome unit * W) (clock : W -> Q) : Prop :=
  (forall w, fst (time w) = clock w) /\
  (forall w, (clock w <= clock (snd (time w)))%Q) /\
  (forall c w, (clock w <= clock (snd (run c w)))%Q).


(** A concrete world for examples: a clock that advances by one at each
    reading, and payloads that return at once. *)
Definition tick (w : nat) : Q * nat := (inject_Z (Z.of_nat w), S w).
Definition quiet (c : call) (w : nat) : outcome unit * nat := (Ret (), w).
Definition failing (c : call) (w : nat) : outcome unit * nat :=
  (Raise NoResponseFromController, w).

End TaskManager.

(** * Lite.py: the registry of devices and the liveness sweep *)

Module Lite.

Abbreviation oid := positive (only parsing).

(** The class of a device object.  BAC0 devices change class as they
    connect and disconnect, so the class is part of the object's state. *)
Inductive device_class :=
| RPDeviceConnected
| RPMDeviceConnected
| OtherDevice (cname : string).

Definition ping_capable (c : device_class) : bool :=
  match c with
  | RPDeviceConnected | RPMDeviceConnected => true
  | OtherDevice _ => false
  end.

Record device_properties := mkProperties {
  name : string;
  address : string;
  device_id : Z;
  ping_failures : Z;
  pollDelay : Z
}.

Record device := mkDevice {
  class_of : device_class;
  properties : device_properties
}.

Definition set_ping_failures (n : Z) (d : device) : device :=
  mkDevice (class_of d)
    (mkProperties (name (properties d)) (address (properties d))
       (device_id (properties d)) n (pollDelay (properties d))).

(** What [self.read] hands back: a string, or some other object (which
    never compares equal to a string). *)
Inductive pyvalue :=
| PyStr (s : string)
| PyObject (repr : string).

Definition py_eq_str (v : pyvalue) (s : string) : bool :=
  match v with
  | PyStr s' => bool_decide (s' = s)
  | PyObject _ => false
  end.

(** ["{} device {} objectName".format(addr, device_id)] *)
Definition objectName_query (addr : string) (device_id : Z) : string :=
  addr +:+ " device " +:+ pretty device_id +:+ " objectName".

(** The calls the sweep makes on its collaborators. *)
Inductive event :=
| EPing (each : oid)
| EDisconnect (each : oid) (unregister : bool)
| ERead (query : string)
| EConnect (each : oid)
| EPoll (each : oid) (delay : Z)
| EUnregister (each : oid).

#[global] Instance event_eq_dec : EqDecision event.
Proof. solve_decision. Defined.

(** The network object: the keys of [_registered_devices] in insertion
    order (the value under a key is the object with that identity; entries
    of collected objects, which a weak dictionary drops, are not modelled),
    the device objects, the outside world, and the calls made so far. *)
Record network (W : Type) := mkNetwork {
  _registered_devices : list oid;
  objects : oid -> device;
  world : W;
  calls : list event
}.
Arguments mkNetwork {W}.
Arguments _registered_devices {W}.
Arguments objects {W}.
Arguments world {W}.
Arguments calls {W}.

(** Computations that read and write the network object and may raise. *)
Definition M (W A : Type) : Type := network W -> outcome A * network W.

Definition ret {W A} (a : A) : M W A := fun s => (Ret a, s).

Definition raise {W A} (e : exn) : M W A := fun s => (Raise e, s).

Definition bind {W A B} (m : M W A) (k : A -> M W B) : M W B :=
  fun s =>
    match m s with
    | (Ret a, s') => k a s'
    | (Raise e, s') => (Raise e, s')
    end.

(** [try: body except E: handler], where [catches] tells the exceptions
    the clause names. *)
Definition try_except {W A} (body : M W A) (catches : exn -> bool)
    (handler : M W A) : M W A :=
  fun s =>
    match body s with
    | (Raise e, s') => if catches e then handler s' else (Raise e, s')
    | r => r
    end.

#[global] Instance M_ret {W} : MRet (M W) := fun A => @ret W A.
#[global] Instance M_bind {W} : MBind (M W) := fun A B k m => bind m k.

Section Sweep.

Context {W : Type}.

(** The collaborators: the device operations and [self.read].  Each sees the
    device objects and the world, and returns or raises. *)
Variable ping_op : oid -> (oid -> device) * W -> outcome unit * ((oid -> device) * W).
Variable disconnect_op :
  oid -> bool -> (oid -> device) * W -> outcome unit * ((oid -> device) * W).
Variable connect_op : oid -> (oid -> device) * W -> outcome unit * ((oid -> device) * W).
Variable poll_op : oid -> Z -> (oid -> device) * W -> outcome unit * ((oid -> device) * W).
Variable read_op : string -> (oid -> device) * W -> outcome pyvalue * ((oid -> device) * W).

(** A call on a collaborator: it is recorded, then takes effect. *)
Definition external {A} (e : event)
    (f : (oid -> device) * W -> outcome A * ((oid -> device) * W)) : M W A :=
  fun s =>
    let '(r, (o, w)) := f (objects s, world s) in
    (r, mkNetwork (_registered_devices s) o w (calls s ++ [e])).

Definition get (each : oid) : M W device :=
  fun s => (Ret (objects s each), s).

Definition assign_ping_failures (each : oid) (n : Z) : M W unit :=
  fun s =>
    (Ret (),
     mkNetwork (_registered_devices s)
       (<[each := set_ping_failures n (objects s each)]> (objects s))
       (world s) (calls s)).

(** [register_device], [unregister_device] and the [registered_devices]
    property. *)
Definition register_device (dev : oid) (s : network W) : network W :=
  if bool_decide (dev ∈ _registered_devices s) then s
  else mkNetwork (_registered_devices s ++ [dev]) (objects s) (world s) (calls s).

Definition unregister_device (dev : oid) (s : network W) : network W :=
  mkNetwork (filter (fun o => o ≠ dev) (_registered_devices s))
    (objects s) (world s) (calls s ++ [EUnregister dev]).

Definition registered_devices (s : network W) : list oid :=
  _registered_devices s.

(** The body of [for each in self.registered_devices:]. *)
Definition check (each : oid) : M W unit :=
  d ← get each;
  if ping_capable (class_of d) then
    try_except
      (external (EPing each) (ping_op each);;
       d ← get each;
       if (3 <? ping_failures (properties d))%Z
       then raise NumerousPingFailures
       else ret ())
      (fun e => bool_decide (e = NumerousPingFailures))
      (external (EDisconnect each false) (disconnect_op each false))
  else
    let device_id := device_id (properties d) in
    let addr := address (properties d) in
    let query := objectName_query addr device_id in
    name' ← external (ERead query) (read_op query);
    d ← get each;
    if py_eq_str name' (name (properties d)) then
      assign_ping_failures each 0;;
      external (EConnect each) (connect_op each);;
      d ← get each;
      external (EPoll each (pollDelay (properties d)))
        (poll_op each (pollDelay (properties d)))
    else ret ().

Fixpoint sweep (l : list oid) : M W unit :=
  match l with
  | [] => ret ()
  | each :: l' => check each;; sweep l'
  end.

(** [ping_registered_devices]: the loop runs over the list that the
    [registered_devices] property builds when the loop starts. *)
Definition ping_registered_devices : M W unit :=
  fun s => sweep (registered_devices s) s.

End Sweep.

(** *** Notions used to state the properties *)

(** The device a call is made on ([read] is a call on the network). *)
Definition subject (e : event) : option oid :=
  match e with
  | EPing o | EDisconnect o _ | EConnect o | EPoll o _ | EUnregister o => Some o
  | ERead _ => None
  end.

Definition calls_on (each : oid) (tr : list event) : list event :=
  filter (fun e => subject e = Some each) tr.

(** A call that takes a device out of the registry. *)
Definition is_removal (e : event) : bool :=
  match e with
  | EDisconnect _ true | EUnregister _ => true
  | _ => false
  end.

(** The calls made between state [s] and a later state [s']. *)
Definition made_during {W} (s s' : network W) : list event :=
  drop (length (calls s)) (calls s').

(** Computation [m] only adds calls that satisfy [P] to the record, and
    leaves the registry as it is. *)
Definition emits {W A} (P : event -> Prop) (m : M W A) : Prop :=
  forall s, exists evs,
    calls (snd (m s)) = calls s ++ evs /\ Forall P evs /\
    _registered_devices (snd (m s)) = _registered_devices s.

(** *** Example networks *)

(** Device 1 is a disconnected device (not ping-capable) and device 2 a
    connected one that already missed three pings. *)
Definition example_objects : oid -> device :=
  fun o =>
    if decide (o = 1%positive)
    then mkDevice (OtherDevice "DeviceDisconnected")
           (mkProperties "AHU-1" "2:5" 5012 4 10)
    else mkDevice RPMDeviceConnected (mkProperties "VAV-2" "2:6" 5013 3 30).

Definition example_network : network unit :=
  mkNetwork [1%positive; 2%positive] example_objects tt [].

(** Collaborators: operations that return at once; a ping that goes
    unanswered, which the device counts; a read that gets no response; a
    read that gets the name of device 1. *)
Definition returns_at_once {A} (a : A)
    (st : (oid -> device) * unit) : outcome A * ((oid -> device) * unit) :=
  (Ret a, st).

Definition missed_ping (each : oid)
    (st : (oid -> device) * unit) : outcome unit * ((oid -> device) * unit) :=
  (Ret (),
   (<[each := set_ping_failures
                (ping_failures (properties (fst st each)) + 1) (fst st each)]>
      (fst st),
    snd st)).

Definition no_response (query : string)
    (st : (oid -> device) * unit) : outcome pyvalue * ((oid -> device) * unit) :=
  (Raise NoResponseFromController, st).

Definition answers (query : string)
    (st : (oid -> device) * unit) : outcome pyvalue * ((oid -> device) * unit) :=
  (Ret (PyStr "AHU-1"), st).

(** *** The registry of trended points *)

(** The class of an object handed to [add_trend] or [remove_trend]. *)
Inductive history_class :=
| Point
| TrendLog
| VirtualPoint
| OtherObject (cname : string).

Definition holds_history (c : history_class) : bool :=
  match c with
  | Point | TrendLog | VirtualPoint => true
  | OtherObject _ => false
  end.

(** [add_trend], [remove_trend] and the [trends] property, on the keys of
    [_points_to_trend] (a weak dictionary keyed by [id(point)], as
    [_registered_devices] is). *)
Definition add_trend (class_of : oid -> history_class) (point_to_trend : oid)
    (_points_to_trend : list oid) : outcome unit * list oid :=
  if holds_history (class_of point_to_trend)
  then (Ret (),
        if bool_decide (point_to_trend ∈ _points_to_trend)
        then _points_to_trend
        else _points_to_trend ++ [point_to_trend])
  else (Raise TypeError, _points_to_trend).

Definition remove_trend (class_of : oid -> history_class) (point_to_remove : oid)
    (_points_to_trend : list oid) : outcome unit * list oid :=
  if holds_history (class_of point_to_remove)
  then (Ret (), filter (fun o => o ≠ point_to_remove) _points_to_trend)
  else (Raise TypeError, _points_to_trend).

Definition trends (_points_to_trend : list oid) : list oid := _points_to_trend.

(** *** The local address, in [Lite.__init__] *)

Definition ValueError : exn := OtherError "ValueError".

(** [s.split(sep)] for a separator of one character. *)
Fixpoint split_on (sep : Ascii.ascii) (s : string) : list string :=
  match s with
  | EmptyString => [EmptyString]
  | String c s' =>
      if bool_decide (c = sep) then EmptyString :: split_on sep s'
      else match split_on sep s' with
           | w :: ws => String c w :: ws
           | [] => [String c EmptyString]
           end
  end.

(** [a, b = l]: unpacking into two names. *)
Definition unpack2 {A} (l : list A) : outcome (A * A) :=
  match l with
  | [a; b] => Ret (a, b)
  | _ => Raise ValueError
  end.

(** The local variables [ip], [mask] and [port] of [__init__]. *)
Record locals := mkLocals {
  l_ip : string;
  l_mask : option Z;
  l_port : option Z
}.

(** [try: body except ValueError: handler] on the local variables. *)
Definition try_ValueError (body handler : locals -> outcome unit * locals)
    (l : locals) : outcome unit * locals :=
  match body l with
  | (Raise e, l') =>
      if bool_decide (e = ValueError) then handler l' else (Raise e, l')
  | r => r
  end.

(** Truth value of an optional integer: [None] and [0] are false. *)
Definition falsy (n : option Z) : bool :=
  match n with
  | None => true
  | Some z => bool_decide (z = 0%Z)
  end.

Section LocalAddress.

(** [int(s)] on a string: the integer, or [None] where Python raises
    [ValueError]; and the address [HostIP(port)] finds when no [ip] is
    given. *)
Variable int : string -> option Z.
Variable host_address : option Z -> string.

Definition int_of (s : string) : outcome Z :=
  match int s with
  | Some z => Ret z
  | None => Raise ValueError
  end.

(** The inner [try] block: [mask_s, port_s = subnet_mask_and_port.split(":")],
    [mask = int(mask_s)], [port = int(port_s)]. *)
Definition mask_and_port (subnet_mask_and_port : string) (l : locals)
    : outcome unit * locals :=
  match unpack2 (split_on ":"%char subnet_mask_and_port) with
  | Raise e => (Raise e, l)
  | Ret (mask_s, port_s) =>
      match int_of mask_s with
      | Raise e => (Raise e, l)
      | Ret m =>
          let l := mkLocals (l_ip l) (Some m) (l_port l) in
          match int_of port_s with
          | Raise e => (Raise e, l)
          | Ret p => (Ret (), mkLocals (l_ip l) (l_mask l) (Some p))
          end
      end
  end.

(** Its handler: [mask = int(subnet_mask_and_port)]. *)
Definition mask_only (subnet_mask_and_port : string) (l : locals)
    : outcome unit * locals :=
  match int_of subnet_mask_and_port with
  | Raise e => (Raise e, l)
  | Ret m => (Ret (), mkLocals (l_ip l) (Some m) (l_port l))
  end.

(** The outer [try] block, which begins with
    [ip, subnet_mask_and_port = ip.split("/")]; its handler is [ip = ip]. *)
Definition ip_and_rest (l : locals) : outcome unit * locals :=
  match unpack2 (split_on "/"%char (l_ip l)) with
  | Raise e => (Raise e, l)
  | Ret (ip, subnet_mask_and_port) =>
      try_ValueError (mask_and_port subnet_mask_and_port)
        (mask_only subnet_mask_and_port)
        (mkLocals ip (l_mask l) (l_port l))
  end.

Definition parse_ip (l : locals) : outcome unit * locals :=
  try_ValueError ip_and_rest (fun l => (Ret (), l)) l.

(** The [else] branch down to the string given to [Address]:
    [if not mask: mask = 24], [if not port: port = 47808],
    ["{}/{}:{}".format(ip, mask, port)]. *)
Definition format_address (l : locals) : string :=
  let mask := if falsy (l_mask l) then 24%Z else default 24%Z (l_mask l) in
  let port := if falsy (l_port l) then 47808%Z else default 47808%Z (l_port l) in
  l_ip l +:+ "/" +:+ pretty mask +:+ ":" +:+ pretty port.

(** The address the network is given, from the parameters [ip], [port] and
    [mask] of [__init__]. *)
Definition local_address (ip : option string) (port mask : option Z)
    : outcome string :=
  match ip with
  | None => Ret (host_address port)
  | Some ip =>
      match parse_ip (mkLocals ip mask port) with
      | (Raise e, _) => Raise e
      | (Ret _, l) => Ret (format_address l)
      end
  end.

End LocalAddress.

(** An [int] for examples: the strings of decimal digits only. *)
Fixpoint digits_value (s : string) (acc : Z) : option Z :=
  match s with
  | EmptyString => Some acc
  | String c s' =>
      let n := Ascii.nat_of_ascii c in
      if bool_decide (48 <= n) && bool_decide (n <= 57)
      then digits_value s' (10 * acc + Z.of_nat (n - 48))%Z
      else None
  end.

Definition example_int (s : string) : option Z :=
  match s with
  | EmptyString => None
  | _ => digits_value s 0%Z
  end.

(** *** The [devices] property *)

(** A key of [discoveredDevices]: [(objId, addr)], with [objId] a pair whose
    second component is the device instance. *)
Record discovered := mkDiscovered {
  objId : string * Z;
  addr : string
}.

Section Devices.

Context {W : Type}.

(** [self.readMultiple], which hands back a tuple, and [self.read]. *)
Variable readMultiple : string -> W -> outcome (list pyvalue) * W.
Variable read : string -> W -> outcome pyvalue * W.

(** The handler of [(UnrecognizedService, ValueError)]: two single reads,
    themselves guarded against [NoResponseFromController] only.  [None]
    stands for [continue]. *)
Definition read_one_by_one (d : discovered) (w : W)
    : outcome (option (pyvalue * pyvalue)) * W :=
  let devId := snd (objId d) in
  match read (addr d +:+ " device " +:+ pretty devId +:+ " objectName") w with
  | (Raise e, w) =>
      if bool_decide (e = NoResponseFromController) then (Ret None, w)
      else (Raise e, w)
  | (Ret deviceName, w) =>
      match read (addr d +:+ " device " +:+ pretty devId +:+ " vendorName") w with
      | (Raise e, w) =>
          if bool_decide (e = NoResponseFromController) then (Ret None, w)
          else (Raise e, w)
      | (Ret vendorName, w) => (Ret (Some (deviceName, vendorName)), w)
      end
  end.

(** The [try] statement in the body of the loop.  Unpacking a tuple that
    does not have two components raises [ValueError] inside the [try]. *)
Definition names_of (d : discovered) (w : W)
    : outcome (option (pyvalue * pyvalue)) * W :=
  let devId := snd (objId d) in
  match readMultiple
          (addr d +:+ " device " +:+ pretty devId +:+ " objectName vendorName") w
  with
  | (Ret [deviceName; vendorName], w) => (Ret (Some (deviceName, vendorName)), w)
  | (Ret _, w) => read_one_by_one d w
  | (Raise e, w) =>
      if bool_decide (e = UnrecognizedService) || bool_decide (e = ValueError)
      then read_one_by_one d w
      else if bool_decide (e = NoResponseFromController)
              || bool_decide (e = Timeout)
      then (Ret None, w)
      else (Raise e, w)
  end.

Fixpoint devices_loop (l : list discovered)
    (lst : list (pyvalue * pyvalue * string * Z)) (w : W)
    : outcome (list (pyvalue * pyvalue * string * Z)) * W :=
  match l with
  | [] => (Ret lst, w)
  | device :: l' =>
      match names_of device w with
      | (Raise e, w) => (Raise e, w)
      | (Ret None, w) => devices_loop l' lst w
      | (Ret (Some (deviceName, vendorName)), w) =>
          devices_loop l'
            (lst ++ [(deviceName, vendorName, addr device, snd (objId device))]) w
      end
  end.

(** [devices]: the loop runs over [list(self.discoveredDevices or {})]. *)
Definition devices (discoveredDevices : option (list discovered)) (w : W)
    : outcome (list (pyvalue * pyvalue * string * Z)) * W :=
  devices_loop (default [] discoveredDevices) [] w.

End Devices.

(** *** [Lite.disconnect] and [__getitem__] *)

Section Disconnect.

Context {W : Type}.

(** [each.disconnect()], which may also change the registry (by default a
    device unregisters itself), and [super().disconnect()]. *)
Variable device_disconnect :
  oid -> list oid * (oid -> device) * W
      -> outcome unit * (list oid * (oid -> device) * W).
Variable base_disconnect :
  list oid * (oid -> device) * W
  -> outcome unit * (list oid * (oid -> device) * W).

Definition calling {A} (e : event)
    (f : list oid * (oid -> device) * W
         -> outcome A * (list oid * (oid -> device) * W)) : M W A :=
  fun s =>
    let '(r, (reg, o, w)) := f (_registered_devices s, objects s, world s) in
    (r, mkNetwork reg o w (calls s ++ [e])).

Fixpoint disconnect_each (l : list oid) : M W unit :=
  match l with
  | [] => ret ()
  | each :: l' =>
      calling (EDisconnect each true) (device_disconnect each);;
      disconnect_each l'
  end.

(** [Lite.disconnect]: the loop runs over the list that the
    [registered_devices] property builds when the loop starts; then comes
    the call of the base class, which is not recorded. *)
Definition unrecorded {A}
    (f : list oid * (oid -> device) * W
         -> outcome A * (list oid * (oid -> device) * W)) : M W A :=
  fun s =>
    let '(r, (reg, o, w)) := f (_registered_devices s, objects s, world s) in
    (r, mkNetwork reg o w (calls s)).

Definition disconnect : M W unit :=
  fun s =>
    (disconnect_each (_registered_devices s);; unrecorded base_disconnect) s.

End Disconnect.

(** What the loop variable of [__getitem__] holds: iterating over the
    dictionary [_registered_devices] yields its keys, which are integers. *)
Inductive pyobj :=
| PyInt (n : positive)
| PyDevice (o : oid).

(** [v.properties] *)
Definition properties_of (objects : oid -> device) (v : pyobj)
    : outcome device_properties :=
  match v with
  | PyInt _ => Raise AttributeError
  | PyDevice o => Ret (properties (objects o))
  end.

(** The loop [for device in self._registered_devices:] of [__getitem__]. *)
Fixpoint find_device (objects : oid -> device) (vs : list pyobj)
    (boid_or_localobject : string) : outcome (option pyobj) :=
  match vs with
  | [] => Ret None
  | device :: vs' =>
      match properties_of objects device with
      | Raise e => Raise e
      | Ret p =>
          if bool_decide (pretty (device_id p) = boid_or_localobject)
          then Ret (Some device)
          else find_device objects vs' boid_or_localobject
      end
  end.

(** [__getitem__]: [objectName] stands for the lookup
    [self.this_application.app.objectName[...]], whose result is a local
    object or [None]. *)
Definition getitem {W} (objectName : string -> outcome (option string))
    (boid_or_localobject : string) (s : network W)
    : outcome (option (string + pyobj)) :=
  match objectName boid_or_localobject with
  | Raise e => Raise e
  | Ret (Some item) => Ret (Some (inl item))
  | Ret None =>
      match find_device (objects s) (PyInt <$> _registered_devices s)
              boid_or_localobject with
      | Raise e => Raise e
      | Ret (Some device) => Ret (Some (inr device))
      | Ret None => Ret None
      end
  end.

(** Character [c] occurs in string [s]. *)
Fixpoint occurs (c : Ascii.ascii) (s : string) : bool :=
  match s with
  | EmptyString => false
  | String c' s' => bool_decide (c' = c) || occurs c s'
  end.





End Lite.

(** * BasicScript.py *)

Module BasicScript.

(** A value given for [DeviceId] or [maxAPDULengthAccepted]: [None], an
    integer or a string. *)
Inductive argument :=
| ArgNone
| ArgInt (z : Z)
| ArgStr (s : string).

(** Truth value of an argument: [None], [0] and the empty string are
    false. *)
Definition truthy (a : argument) : bool :=
  match a with
  | ArgNone => false
  | ArgInt z => negb (bool_decide (z = 0%Z))
  | ArgStr s => negb (bool_decide (s = ""))
  end.

(** [int(x)] on a float: truncation towards zero. *)
Definition int_float (x : Q) : Z := Z.quot (Qnum x) (Z.pos (Qden x)).

(** The exceptions that [except Exception] catches.  [CancelledError]
    derives from [BaseException]; [OtherError] carries the name of a class,
    and of the built-in ones [KeyboardInterrupt], [SystemExit] and
    [GeneratorExit] do not derive from [Exception]. *)
Definition is_Exception (e : exn) : bool :=
  match e with
  | CancelledError => false
  | OtherError msg =>
      negb (bool_decide
              (msg ∈ ["KeyboardInterrupt"; "SystemExit"; "GeneratorExit"]))
  | _ => true
  end.

(** The calls made on the BACnet stack and on the thread that runs it.
    [ServicesSupported] stands for building the bit string and storing it in
    the device object, [Thread] for the construction of the thread. *)
Inductive event :=
| LocalDeviceObject (objectName : string) (objectIdentifier : Z)
    (maxApduLengthAccepted : Z)
| ServicesSupported
| ScriptApplication (localIPAddr : string)
| enable_sleeping
| Thread
| Thread_start
| directPort_handle_close
| broadcastPort_handle_close
| stopBacnetIPApp
| Thread_join
| readMultiple_of (args : string).

#[global] Instance event_eq_dec : EqDecision event.
Proof. solve_decision. Defined.

(** The script object.  [this_device], [this_application] and [t] are
    attributes that exist only once they have been assigned; the objects
    they hold live in the stack.  [discoveredDevices] holds pairs of an
    address and a device instance. *)
Record script := mkScript {
  _initialized : bool;
  _started : bool;
  _stopped : bool;
  localIPAddr : string;
  localObjName : string;
  Boid : Z;
  maxAPDULengthAccepted : argument;
  discoveredDevices : option (list (string * Z));
  this_device : option unit;
  this_application : option unit;
  t : option unit
}.

Definition set_initialized (b : bool) (s : script) : script :=
  mkScript b (_started s) (_stopped s) (localIPAddr s) (localObjName s)
    (Boid s) (maxAPDULengthAccepted s) (discoveredDevices s) (this_device s)
    (this_application s) (t s).

Definition set_started (b : bool) (s : script) : script :=
  mkScript (_initialized s) b (_stopped s) (localIPAddr s) (localObjName s)
    (Boid s) (maxAPDULengthAccepted s) (discoveredDevices s) (this_device s)
    (this_application s) (t s).

Definition set_stopped (b : bool) (s : script) : script :=
  mkScript (_initialized s) (_started s) b (localIPAddr s) (localObjName s)
    (Boid s) (maxAPDULengthAccepted s) (discoveredDevices s) (this_device s)
    (this_application s) (t s).

Definition set_this_device (d : option unit) (s : script) : script :=
  mkScript (_initialized s) (_started s) (_stopped s) (localIPAddr s)
    (localObjName s) (Boid s) (maxAPDULengthAccepted s) (discoveredDevices s)
    d (this_application s) (t s).

Definition set_this_application (a : option unit) (s : script) : script :=
  mkScript (_initialized s) (_started s) (_stopped s) (localIPAddr s)
    (localObjName s) (Boid s) (maxAPDULengthAccepted s) (discoveredDevices s)
    (this_device s) a (t s).

Definition set_t (th : option unit) (s : script) : script :=
  mkScript (_initialized s) (_started s) (_stopped s) (localIPAddr s)
    (localObjName s) (Boid s) (maxAPDULengthAccepted s) (discoveredDevices s)
    (this_device s) (this_application s) th.

(** The script, the stack and its threads, and the calls made so far. *)
Record state (W : Type) := mkState {
  self : script;
  world : W;
  calls : list event
}.
Arguments mkState {W}.
Arguments self {W}.
Arguments world {W}.
Arguments calls {W}.

(** Computations that read and write the script and may raise. *)
Definition M (W A : Type) : Type := state W -> outcome A * state W.

Definition ret {W A} (a : A) : M W A := fun st => (Ret a, st).

Definition raise {W A} (e : exn) : M W A := fun st => (Raise e, st).

Definition bind {W A B} (m : M W A) (k : A -> M W B) : M W B :=
  fun st =>
    match m st with
    | (Ret a, st') => k a st'
    | (Raise e, st') => (Raise e, st')
    end.

Definition try_except {W A} (body : M W A) (catches : exn -> bool)
    (handler : M W A) : M W A :=
  fun st =>
    match body st with
    | (Raise e, st') => if catches e then handler st' else (Raise e, st')
    | r => r
    end.

#[global] Instance M_ret {W} : MRet (M W) := fun A => @ret W A.
#[global] Instance M_bind {W} : MBind (M W) := fun A B k m => bind m k.

Definition get {W} : M W script := fun st => (Ret (self st), st).

Definition assign {W} (f : script -> script) : M W unit :=
  fun st => (Ret (), mkState (f (self st)) (world st) (calls st)).

(** Reading an attribute that may not have been assigned. *)
Definition attribute {W A} (a : script -> option A) : M W A :=
  fun st =>
    match a (self st) with
    | Some x => (Ret x, st)
    | None => (Raise AttributeError, st)
    end.

Definition of_outcome {W A} (r : outcome A) : M W A := fun st => (r, st).

Section Stack.

Context {W : Type}.

(** [int(s)] on a string ([None] where Python raises [ValueError]),
    [random.uniform], the effect of each call on the stack, and
    [self.readMultiple]. *)
Variable int : string -> option Z.
Variable uniform : Q -> Q -> W -> Q * W.
Variable perform : event -> W -> outcome unit * W.
Variable readMultiple : string -> W -> outcome (list Lite.pyvalue) * W.

Definition int_of (a : argument) : outcome Z :=
  match a with
  | ArgNone => Raise TypeError
  | ArgInt z => Ret z
  | ArgStr s =>
      match int s with
      | Some z => Ret z
      | None => Raise Lite.ValueError
      end
  end.

Definition external (e : event) : M W unit :=
  fun st =>
    let '(r, w) := perform e (world st) in
    (r, mkState (self st) w (calls st ++ [e])).

Definition _startAppThread : M W unit :=
  external enable_sleeping;;
  external Thread;;
  assign (set_t (Some ()));;
  external Thread_start;;
  assign (set_started true).

(** The body of the [try] statement of [startApp].  The arguments of
    [LocalDeviceObject] are evaluated before it is called. *)
Definition startApp_try : M W unit :=
  s ← get;
  maxApduLengthAccepted ← of_outcome (int_of (maxAPDULengthAccepted s));
  external (LocalDeviceObject (localObjName s) (Boid s) maxApduLengthAccepted);;
  assign (set_this_device (Some ()));;
  external ServicesSupported;;
  external (ScriptApplication (localIPAddr s));;
  assign (set_this_application (Some ()));;
  assign (set_initialized true);;
  _startAppThread.

(** [startApp]: the handler only logs the error. *)
Definition startApp : M W unit :=
  try_except startApp_try is_Exception (ret ()).

(** [int(DeviceId) if DeviceId else (3056177 + int(random.uniform(0, 1000)))] *)
Definition Boid_of (DeviceId : argument) (w : W) : outcome Z * W :=
  if truthy DeviceId then (int_of DeviceId, w)
  else let '(u, w) := uniform 0 1000 w in
       (Ret (3056177 + int_float u)%Z, w).

(** The constructor: the script it hands back, or the exception it
    raises, with the stack and the calls made. *)
Definition __init__ (localIPAddr localObjName : string)
    (DeviceId maxAPDULengthAccepted : argument) (w : W)
    : outcome script * (W * list event) :=
  match Boid_of DeviceId w with
  | (Raise e, w) => (Raise e, (w, []))
  | (Ret boid, w) =>
      let self0 :=
        mkScript false false false localIPAddr localObjName boid
          maxAPDULengthAccepted None None None None in
      match startApp (mkState self0 w []) with
      | (Ret _, st) => (Ret (self st), (world st, calls st))
      | (Raise e, st) => (Raise e, (world st, calls st))
      end
  end.

(** [disconnect]: the first [except:] names no class and catches
    everything. *)
Definition disconnect : M W unit :=
  try_except
    (attribute this_application;; external directPort_handle_close)
    (fun _ => true)
    (attribute this_application;; external broadcastPort_handle_close);;
  external stopBacnetIPApp;;
  assign (set_stopped true);;
  attribute t;;
  external Thread_join;;
  assign (set_started false).

(** The body of the loop of [devices]: the row of the device, or [None]
    for [continue].  Unpacking a tuple that does not have two components
    raises [ValueError]. *)
Definition row : Type := Lite.pyvalue * Lite.pyvalue * string * Z.

Definition row_of (device : string * Z) : M W (option row) :=
  let args :=
    fst device +:+ " device " +:+ pretty (snd device)
    +:+ " objectName vendorName" in
  try_except
    (fun st =>
       let '(r, w) := readMultiple args (world st) in
       let st := mkState (self st) w (calls st ++ [readMultiple_of args]) in
       match r with
       | Ret [deviceName; vendorName] =>
           (Ret (Some (deviceName, vendorName, fst device, snd device)), st)
       | Ret _ => (Raise Lite.ValueError, st)
       | Raise e => (Raise e, st)
       end)
    (fun e => bool_decide (e = NoResponseFromController))
    (ret None).

Fixpoint devices_loop (l : list (string * Z)) (lst : list row)
    : M W (list row) :=
  match l with
  | [] => ret lst
  | device :: l' =>
      r ← row_of device;
      devices_loop l' (match r with Some x => lst ++ [x] | None => lst end)
  end.

(** [pd.DataFrame(lst, columns=[...]).set_index('Name').sort_values('Address')]:
    the frame that pandas builds from the rows, indexed by name and sorted
    by address, or the exception pandas raises. *)
Context {F : Type}.
Variable DataFrame : list row -> outcome F.

(** [devices].  A [for] loop over [None] raises [TypeError]. *)
Definition devices : M W F :=
  s ← get;
  match discoveredDevices s with
  | None => raise TypeError
  | Some l => lst ← devices_loop l []; of_outcome (DataFrame lst)
  end.

End Stack.

(** Examples: a stack on which every call returns at once, one that has no
    socket for the application, one whose direct port is closed already,
    a draw in the middle of the interval, a network on which only the
    device 5012 at 2:5 answers, and one on which every device answers. *)
Definition quiet_stack (e : event) (w : unit) : outcome unit * unit :=
  (Ret (), w).

Definition no_socket (e : event) (w : unit) : outcome unit * unit :=
  match e with
  | ScriptApplication _ => (Raise (OtherError "OSError"), w)
  | _ => (Ret (), w)
  end.

Definition direct_port_closed (e : event) (w : unit) : outcome unit * unit :=
  match e with
  | directPort_handle_close => (Raise (OtherError "OSError"), w)
  | _ => (Ret (), w)
  end.

Definition midpoint (a b : Q) (w : unit) : Q * unit := ((a + b) / 2, w)%Q.

Definition one_answers (args : string) (w : unit)
    : outcome (list Lite.pyvalue) * unit :=
  if bool_decide (args = "2:5 device 5012 objectName vendorName")
  then (Ret [Lite.PyStr "FCU-12"; Lite.PyStr "ACME"], w)
  else (Raise NoResponseFromController, w).

(** A frame kept as the list of its rows, sorted by address. *)
Fixpoint insert_by_address (r : Lite.pyvalue * Lite.pyvalue * string * Z)
    (l : list (Lite.pyvalue * Lite.pyvalue * string * Z))
    : list (Lite.pyvalue * Lite.pyvalue * string * Z) :=
  match l with
  | [] => [r]
  | r' :: l' =>
      if String.leb (snd (fst r)) (snd (fst r')) then r :: l
      else r' :: insert_by_address r l'
  end.

Definition rows_by_address (lst : list (Lite.pyvalue * Lite.pyvalue * string * Z))
    : outcome (list (Lite.pyvalue * Lite.pyvalue * string * Z)) :=
  Ret (foldr insert_by_address [] lst).

Definition both_answer (args : string) (w : unit)
    : outcome (list Lite.pyvalue) * unit :=
  (Ret [Lite.PyStr args; Lite.PyStr "ACME"], w).

Definition example_script : script :=
  mkScript true true false "192.168.1.10/24" "BAC0" 4000 (ArgStr "1024")
    (Some [("2:6", 5011%Z); ("2:5", 5012%Z)]) (Some ()) (Some ()) (Some ()).

End BasicScript.

(** * Properties of the task manager *)

Module TaskManagerSpec.
Import TaskManager.

Lemma Qgt_bool_true x y : Qgt_bool x y = true <-> (y < x)%Q.
Proof.
  unfold Qgt_bool. rewrite negb_true_iff, <- not_true_iff_false, Qle_bool_iff.
  split; [apply Qnot_le_lt | apply Qlt_not_le].
Qed.

Lemma Qgt_bool_false x y : Qgt_bool x y = false <-> (x <= y)%Q.
Proof.
  unfold Qgt_bool. rewrite negb_false_iff. apply Qle_bool_iff.
Qed.

Lemma Qge_bool_true x y : Qge_bool x y = true <-> (y <= x)%Q.
Proof. apply Qle_bool_iff. Qed.

Lemma Qge_bool_false x y : Qge_bool x y = false <-> (x < y)%Q.
Proof.
  unfold Qge_bool. rewrite <- not_true_iff_false, Qle_bool_iff.
  split; [apply Qnot_le_lt | apply Qlt_not_le].
Qed.


(** C7. A requested delay [d] with [0 < d < 5] is raised to exactly [5]; a
    delay of at least [5] is kept; a delay equal to [0] gives a one-shot
    Task, whose delay is [0]. *)
Theorem delay_clamped self k fn name (d now rnd : Q) :
  let t := Task_init self k fn name d now rnd in
  ((0 < d)%Q -> (d < 5)%Q -> delay t = 5%Q) /\
  ((5 <= d)%Q -> delay t = d) /\
  ((d == 0)%Q -> delay t = 0%Q).
Proof.
  assert (Ht : delay (Task_init self k fn name d now rnd)
               = if Qgt_bool d 0 then (if Qge_bool d 5 then d else 5%Q) else 0%Q)
    by (destruct fn; reflexivity).
  cbv zeta. rewrite Ht. clear Ht. repeat split.
  - intros Hpos Hlt.
    apply Qgt_bool_true in Hpos. apply Qge_bool_false in Hlt.
    now rewrite Hpos, Hlt.
  - intros Hge.
    assert (Hpos : (0 < d)%Q) by (eapply Qlt_le_trans; [|exact Hge]; reflexivity).
    apply Qgt_bool_true in Hpos. apply Qge_bool_true in Hge.
    now rewrite Hpos, Hge.
  - intros Hz.
    assert (Hle : (d <= 0)%Q) by (rewrite Hz; apply Qle_refl).
    apply Qgt_bool_false in Hle. now rewrite Hle.
Qed.

Lemma delay_clamped_witness :
  delay (Task_init 1 KTask FnNone None 3 0 0) = 5%Q /\
  delay (Task_init 1 KTask FnNone None 300 0 0) = 300%Q /\
  delay (Task_init 1 KTask FnNone None 0 0 0) = 0%Q.
Proof.
  pose proof (delay_clamped 1 KTask FnNone None 3 0 0) as H3.
  pose proof (delay_clamped 1 KTask FnNone None 300 0 0) as H300.
  pose proof (delay_clamped 1 KTask FnNone None 0 0 0) as H0.
  split; [|split].
  - apply H3; reflexivity.
  - apply H300. discriminate.
  - apply H0. reflexivity.
Defined.

(** C9. When [A.next_execution < B.next_execution], the comparison
    [A < B] is false and [B < A] is true: [__lt__] is the inverse of the
    ascending order on [next_execution]. *)
Theorem lt_is_inverted (A B : Task) :
  (next_execution A < next_execution B)%Q ->
  lt A B = false /\ lt B A = true.
Proof.
  intros Hlt. unfold lt. split.
  - apply Qgt_bool_false. now apply Qlt_le_weak.
  - now apply Qgt_bool_true.
Qed.

Lemma lt_is_inverted_witness :
  (next_execution (Task_init 1 KTask FnNone None 10 100 0)
   < next_execution (Task_init 2 KTask FnNone None 10 200 0))%Q /\
  lt (Task_init 1 KTask FnNone None 10 100 0)
     (Task_init 2 KTask FnNone None 10 200 0) = false /\
  lt (Task_init 2 KTask FnNone None 10 200 0)
     (Task_init 1 KTask FnNone None 10 100 0) = true.
Proof.
  assert (H : (next_execution (Task_init 1 KTask FnNone None 10 100 0)
               < next_execution (Task_init 2 KTask FnNone None 10 200 0))%Q)
    by reflexivity.
  split; [exact H|].
  exact (lt_is_inverted _ _ H).
Defined.

Section Execution.

Context {W : Type}.
Variable time : W -> Q * W.
Variable run : call -> W -> outcome unit * W.

(** ** What one pass of the coroutine leaves alone *)

Lemma iteration_fields (t : Task) (w : W) :
  let t' := snd (fst (iteration time run t w)) in
  id t' = id t /\ _task t' = _task t /\ aio_task t' = aio_task t /\
  delay t' = delay t.
Proof.
  unfold iteration.
  destruct (time w) as [st w1].
  destruct (invoke_payload run _ w1) as [[u|e] w2]; [|now cbn].
  destruct (truthy_time _);
    destruct (time w2) as [n1 w3]; destruct (time w3) as [n2 w4]; now cbn.
Qed.

Lemma one_shot_unfold (t : Task) (w : W) :
  one_shot run t w = (fst (invoke_payload run t w), t, snd (invoke_payload run t w)).
Proof. unfold one_shot. now destruct (invoke_payload run t w). Qed.

Lemma advance_fields (p : coro_pc) (t : Task) (w : W) :
  let t' := snd (fst (advance time run p t w)) in
  id t' = id t /\ _task t' = _task t /\ aio_task t' = aio_task t /\
  delay t' = delay t.
Proof.
  destruct p; cbn [advance]; try now cbn.
  - unfold execute. destruct (Qgt_bool (delay t) 0).
    + pose proof (iteration_fields t w) as H.
      destruct (iteration time run t w) as [[r t'] w']. exact H.
    + rewrite one_shot_unfold. now cbn.
  - pose proof (iteration_fields t w) as H.
    destruct (iteration time run t w) as [[r t'] w']. exact H.
Qed.

(** C10. [OneShotTask(fn, args, name)] keeps neither [fn] nor [args]: both
    fields are [None], so [execute] awaits the virtual [task] method and not
    the callable supplied; on a class that does not override [task] (such as
    [OneShotTask] itself) this raises [NotImplementedError]. *)
Theorem one_shot_task_discards_fn self k f a name (now rnd : Q) (w : W) :
  let t := OneShotTask_init self k f a name now rnd in
  fn t = None /\ args t = None /\
  payload_call t = CallTask self None /\
  execute time run t w =
    (if overrides_task k
     then (fst (run (CallTask self None) w), t, snd (run (CallTask self None) w))
     else (Raise NotImplementedError, t, w)) /\
  execute time run (OneShotTask_init self KOneShotTask f a name now rnd) w =
    (Raise NotImplementedError,
     OneShotTask_init self KOneShotTask f a name now rnd, w).
Proof.
  cbv zeta.
  split; [reflexivity|]. split; [reflexivity|]. split; [reflexivity|].
  split; [|reflexivity].
  unfold execute.
  change (Qgt_bool (delay (OneShotTask_init self k f a name now rnd)) 0)
    with false.
  rewrite one_shot_unfold. unfold invoke_payload. cbn.
  now destruct (overrides_task k).
Qed.

(** ** Loops that will not run again *)

Lemma runs_of_snoc h h' c tr :
  runs_of h (tr ++ [ERun h' c]) = runs_of h tr + (if decide (h' = h) then 1 else 0).
Proof.
  unfold runs_of. rewrite filter_app, length_app. f_equal.
  rewrite filter_cons, filter_nil. cbn [ev_handle].
  now destruct (decide (h' = h)).
Qed.

Lemma cancel_frame h (s : state W) :
  let s' := snd (cancel h s) in
  heap s' = heap s /\ tasks s' = tasks s /\ shadowed s' = shadowed s /\
  world s' = world s /\ trace s' = trace s /\
  length (loops s') = length (loops s).
Proof.
  unfold cancel. destruct (loops s !! h) as [a|]; [|cbn; tauto].
  destruct (done_pc (pc a)); cbn; [tauto|].
  rewrite length_insert. tauto.
Qed.

Lemma cancel_kills h (s : state W) :
  h < length (loops s) -> dead h (snd (cancel h s)).
Proof.
  intros Hlt. unfold cancel.
  destruct (loops s !! h) as [a|] eqn:Ha.
  - destruct (done_pc (pc a)) eqn:Hd; cbn.
    + exists a. now rewrite Hd.
    + eexists. cbn. rewrite list_lookup_insert_eq by exact Hlt.
      split; [reflexivity|]. cbn. apply orb_true_r.
  - apply lookup_ge_None in Ha. lia.
Qed.

Lemma cancel_keeps_dead h h' (s : state W) :
  dead h s -> dead h (snd (cancel h' s)).
Proof.
  intros (a & Ha & Hd). unfold cancel.
  destruct (loops s !! h') as [a'|] eqn:Ha'; [|now exists a].
  destruct (done_pc (pc a')) eqn:Hd'; cbn; [now exists a|].
  destruct (decide (h' = h)) as [->|Hne].
  - eexists. cbn. rewrite list_lookup_insert_eq by (eapply lookup_lt_Some; eauto).
    split; [reflexivity|]. cbn. apply orb_true_r.
  - exists a. cbn. now rewrite list_lookup_insert_ne.
Qed.

Lemma resume_keeps_dead h h' (s : state W) :
  dead h s -> dead h (resume time run h' s).
Proof.
  intros (a & Ha & Hd). unfold resume.
  destruct (loops s !! h') as [a'|] eqn:Ha'; [|now exists a].
  destruct (done_pc (pc a')) eqn:Hd'; [now exists a|].
  destruct (decide (h' = h)) as [->|Hne].
  - assert (a' = a) as -> by congruence.
    rewrite Hd' in Hd. cbn in Hd. rewrite Hd.
    eexists. cbn. rewrite list_lookup_insert_eq by (eapply lookup_lt_Some; eauto).
    split; reflexivity.
  - destruct (must_cancel a').
    + exists a. cbn. now rewrite list_lookup_insert_ne.
    + destruct (heap s !! coro_self a') as [t|]; [|now exists a].
      destruct (advance time run (pc a') t (world s)) as [[p' t'] w'].
      exists a. cbn. now rewrite list_lookup_insert_ne.
Qed.

Lemma resume_dead_no_run h h' (s : state W) :
  dead h s -> runs_of h (trace (resume time run h' s)) = runs_of h (trace s).
Proof.
  intros (a & Ha & Hd). unfold resume.
  destruct (loops s !! h') as [a'|] eqn:Ha'; [|reflexivity].
  destruct (done_pc (pc a')) eqn:Hd'; [reflexivity|].
  destruct (must_cancel a') eqn:Hc; [reflexivity|].
  destruct (heap s !! coro_self a') as [t|]; [|reflexivity].
  destruct (advance time run (pc a') t (world s)) as [[p' t'] w'].
  cbn [trace]. rewrite runs_of_snoc.
  destruct (decide (h' = h)) as [->|Hne]; [|lia].
  assert (a' = a) as -> by congruence.
  rewrite Hd', Hc in Hd. discriminate.
Qed.

Lemma cancel_each_frame l (s : state W) :
  let s' := snd (cancel_each l s) in
  heap s' = heap s /\ tasks s' = tasks s /\ shadowed s' = shadowed s /\
  world s' = world s /\ trace s' = trace s /\
  length (loops s') = length (loops s).
Proof.
  revert s. induction l as [|o l IH]; intros s; cbn; [tauto|].
  destruct (heap s !! o) as [t|]; [|cbn; tauto].
  destruct (aio_task t) as [h|]; [|cbn; tauto].
  destruct (IH (snd (cancel h s))) as (-> & -> & -> & -> & -> & ->).
  apply cancel_frame.
Qed.

Lemma cancel_each_keeps_dead l h (s : state W) :
  dead h s -> dead h (snd (cancel_each l s)).
Proof.
  revert s. induction l as [|o l IH]; intros s Hd; cbn; [exact Hd|].
  destruct (heap s !! o) as [t|]; [|exact Hd].
  destruct (aio_task t) as [h'|]; [|exact Hd].
  apply IH. now apply cancel_keeps_dead.
Qed.

Lemma apply_op_keeps_dead h (s : state W) (o : op) :
  dead h s ->
  dead h (apply_op time run s o) /\
  runs_of h (trace (apply_op time run s o)) = runs_of h (trace s).
Proof.
  intros Hd. destruct o; cbn [apply_op].
  - now cbn.
  - now cbn.
  - unfold start. destruct (heap s !! self); [|now split].
    cbn. split; [|reflexivity].
    destruct Hd as (a & Ha & Hd). exists a. split; [|exact Hd].
    cbn [loops]. rewrite lookup_app_l; [exact Ha|]. eapply lookup_lt_Some; eauto.
  - unfold stop. destruct (heap s !! self) as [t|]; [|now split].
    destruct (_task t) as [h'|]; [|now split]. cbn [snd].
    split; [now apply cancel_keeps_dead|].
    now destruct (cancel_frame h' s) as (_ & _ & _ & _ & -> & _).
  - unfold stopAllTasks.
    pose proof (cancel_each_keeps_dead (tasks s) h s Hd) as Hd'.
    destruct (cancel_each_frame (tasks s) s) as (_ & _ & _ & _ & Htr & _).
    destruct (cancel_each (tasks s) s) as [[u|e] s']; cbn in *.
    + now rewrite Htr.
    + now rewrite Htr.
  - destruct cls; now cbn.
  - split; [now apply resume_keeps_dead | now apply resume_dead_no_run].
Qed.

Lemma run_ops_cons o ops (s : state W) :
  run_ops time run (o :: ops) s = run_ops time run ops (apply_op time run s o).
Proof. reflexivity. Qed.

Lemma run_ops_app ops1 ops2 (s : state W) :
  run_ops time run (ops1 ++ ops2) s
  = run_ops time run ops2 (run_ops time run ops1 s).
Proof. apply foldl_app. Qed.

Lemma run_ops_keeps_dead h ops (s : state W) :
  dead h s ->
  dead h (run_ops time run ops s) /\
  runs_of h (trace (run_ops time run ops s)) = runs_of h (trace s).
Proof.
  revert s. induction ops as [|o ops IH]; intros s Hd; [now split|].
  rewrite run_ops_cons. destruct (apply_op_keeps_dead h s o Hd) as [Hd' Hr].
  destruct (IH _ Hd') as [Hd'' Hr']. split; [exact Hd''|]. now rewrite Hr'.
Qed.

(** A coroutine that has finished stays as it is, whatever is done
    afterwards, and resuming it changes nothing. *)
Lemma cancel_keeps_finished h h' a (s : state W) :
  loops s !! h = Some a -> done_pc (pc a) = true ->
  loops (snd (cancel h' s)) !! h = Some a.
Proof.
  intros Ha Hd. unfold cancel.
  destruct (loops s !! h') as [a'|] eqn:Ha'; [|exact Ha].
  destruct (done_pc (pc a')) eqn:Hd'; cbn; [exact Ha|].
  destruct (decide (h' = h)) as [->|Hne]; [congruence|].
  now rewrite list_lookup_insert_ne.
Qed.

Lemma cancel_each_keeps_finished l h a (s : state W) :
  loops s !! h = Some a -> done_pc (pc a) = true ->
  loops (snd (cancel_each l s)) !! h = Some a.
Proof.
  revert s. induction l as [|o l IH]; intros s Ha Hd; cbn; [exact Ha|].
  destruct (heap s !! o) as [t|]; [|exact Ha].
  destruct (aio_task t) as [h'|]; [|exact Ha].
  apply IH; [|exact Hd]. now apply cancel_keeps_finished.
Qed.

Lemma resume_finished h a (s : state W) :
  loops s !! h = Some a -> done_pc (pc a) = true ->
  resume time run h s = s.
Proof. intros Ha Hd. unfold resume. now rewrite Ha, Hd. Qed.

Lemma apply_op_keeps_finished h a (s : state W) (o : op) :
  loops s !! h = Some a -> done_pc (pc a) = true ->
  loops (apply_op time run s o) !! h = Some a.
Proof.
  intros Ha Hd. destruct o; cbn [apply_op].
  - exact Ha.
  - exact Ha.
  - unfold start. destruct (heap s !! self); [|exact Ha].
    cbn [loops]. rewrite lookup_app_l; [exact Ha|].
    eapply lookup_lt_Some; eauto.
  - unfold stop. destruct (heap s !! self) as [t|]; [|exact Ha].
    destruct (_task t) as [h'|]; [|exact Ha]. cbn [snd].
    now apply cancel_keeps_finished.
  - unfold stopAllTasks.
    pose proof (cancel_each_keeps_finished (tasks s) h a s Ha Hd) as Ha'.
    destruct (cancel_each (tasks s) s) as [[u|e] s']; exact Ha'.
  - destruct cls; exact Ha.
  - destruct (decide (h0 = h)) as [->|Hne].
    + now rewrite (resume_finished h a s Ha Hd).
    + unfold resume.
      destruct (loops s !! h0) as [a'|] eqn:Ha'; [|exact Ha].
      destruct (done_pc (pc a')); [exact Ha|].
      destruct (must_cancel a').
      * cbn. now rewrite list_lookup_insert_ne.
      * destruct (heap s !! coro_self a') as [t|]; [|exact Ha].
        destruct (advance time run (pc a') t (world s)) as [[p' t'] w'].
        cbn. now rewrite list_lookup_insert_ne.
Qed.

Lemma run_ops_keeps_finished h a ops (s : state W) :
  loops s !! h = Some a -> done_pc (pc a) = true ->
  loops (run_ops time run ops s) !! h = Some a.
Proof.
  revert s. induction ops as [|o ops IH]; intros s Ha Hd; [exact Ha|].
  rewrite run_ops_cons. apply IH; [|exact Hd].
  now apply apply_op_keeps_finished.
Qed.

(** C5. A Task whose delay is [0].  [execute] awaits, once, the payload
    that the chain on [fn], [args] and [_kwargs] selects: [fn(args)], [fn()]
    or the [task] method (which, when the class does not override it, is
    [Task.task] and raises).  What the payload returns or raises is what
    [execute] returns or raises, the world is the one the payload leaves,
    and every field of the Task, [next_execution] among them, is as it was.
    On the event loop, the first resumption of the coroutine does exactly
    that: the heap and the registry are unchanged and the coroutine has
    finished, with the exception of the payload if it raised.  It never runs
    again: whatever happens afterwards, resuming it changes nothing. *)
Theorem one_shot_runs_once (t : Task) :
  (delay t == 0)%Q ->
  let c := match fn t, args t with
           | Some f, Some a => CallFnArgs f a
           | Some f, None => CallFn f
           | None, _ => CallTask (id t) (_kwargs t)
           end in
  let payload := fun w : W =>
    match fn t with
    | Some _ => run c w
    | None =>
        if overrides_task (klass_of t) then run c w
        else (Raise (match _kwargs t with
                     | Some (_ :: _) => TypeError
                     | _ => NotImplementedError
                     end), w)
    end in
  (forall w, execute time run t w = (fst (payload w), t, snd (payload w))) /\
  forall (s : state W) (h : handle) (self : oid),
    loops s !! h = Some (mkAio self Created false) ->
    heap s !! self = Some t ->
    let s' := resume time run h s in
    world s' = snd (payload (world s)) /\
    heap s' = heap s /\
    tasks s' = tasks s /\
    loops s' !! h
      = Some (mkAio self
                (match fst (payload (world s)) with
                 | Ret _ => Returned
                 | Raise e => Raised e
                 end) false) /\
    trace s' = trace s ++ [ERun h c] /\
    forall ops,
      let s'' := run_ops time run ops s' in
      resume time run h s'' = s'' /\
      runs_of h (trace s'') = S (runs_of h (trace s)).
Proof.
  intros Hz. cbv zeta.
  assert (Hgt : Qgt_bool (delay t) 0 = false).
  { apply Qgt_bool_false. rewrite Hz. apply Qle_refl. }
  assert (Hpay : forall w,
    invoke_payload run t w
    = match fn t with
      | Some _ => run (payload_call t) w
      | None =>
          if overrides_task (klass_of t) then run (payload_call t) w
          else (Raise (match _kwargs t with
                       | Some (_ :: _) => TypeError
                       | _ => NotImplementedError
                       end), w)
      end).
  { intros w. unfold invoke_payload, await_call, payload_call.
    destruct (fn t) as [f|]; [now destruct (args t)|].
    destruct (overrides_task (klass_of t)); [reflexivity|].
    now destruct (_kwargs t) as [[|? ?]|]. }
  assert (Hex : forall w,
    execute time run t w
    = (fst (invoke_payload run t w), t, snd (invoke_payload run t w))).
  { intros w. unfold execute. rewrite Hgt. apply one_shot_unfold. }
  change (match fn t, args t with
          | Some f, Some a => CallFnArgs f a
          | Some f, None => CallFn f
          | None, _ => CallTask (id t) (_kwargs t)
          end) with (payload_call t).
  split; [intros w; now rewrite Hex, Hpay|].
  intros s h self Hh Ht. rewrite <- !Hpay.
  assert (Hres : resume time run h s
    = mkState (heap s) (tasks s) (shadowed s)
        (<[h := mkAio self
                  (match fst (invoke_payload run t (world s)) with
                   | Ret _ => Returned
                   | Raise e => Raised e
                   end) false]> (loops s))
        (snd (invoke_payload run t (world s)))
        (trace s ++ [ERun h (payload_call t)])).
  { unfold resume. rewrite Hh. cbn [pc done_pc must_cancel coro_self].
    rewrite Ht. cbn [advance]. rewrite Hex, Hgt.
    rewrite (insert_id (heap s) self t Ht).
    now destruct (fst (invoke_payload run t (world s))). }
  assert (Hlt : h < length (loops s)) by (eapply lookup_lt_Some; eauto).
  assert (Hfin : exists a, loops (resume time run h s) !! h = Some a /\
                           done_pc (pc a) = true).
  { rewrite Hres. eexists. cbn [loops].
    rewrite list_lookup_insert_eq by exact Hlt. split; [reflexivity|].
    cbn [pc]. now destruct (fst (invoke_payload run t (world s))). }
  destruct Hfin as (a & Ha & Hd).
  assert (Hdead : dead h (resume time run h s)).
  { exists a. split; [exact Ha|]. now rewrite Hd. }
  split; [now rewrite Hres|]. split; [now rewrite Hres|].
  split; [now rewrite Hres|].
  split; [rewrite Hres; now apply list_lookup_insert_eq|].
  split; [now rewrite Hres|].
  intros ops. split.
  - apply (resume_finished h a); [|exact Hd].
    now apply run_ops_keeps_finished.
  - destruct (run_ops_keeps_dead h ops _ Hdead) as [_ ->].
    rewrite Hres. cbn [trace]. rewrite runs_of_snoc.
    destruct (decide (h = h)); [lia|congruence].
Qed.

End Execution.

Lemma one_shot_runs_once_witness :
  let t := set_aio_task (Some 0)
             (Task_init 1 KTask (FnCallable "f") None 0 100 0) in
  let s := run_ops tick quiet
             [New KTask (FnCallable "f") None 0 100 0; Start 1] (initial 0) in
  let s' := run_ops tick failing
              [New KTask (FnCallable "f") None 0 100 0; Start 1] (initial 0) in
  execute tick failing t 7 = (Raise NoResponseFromController, t, 7) /\
  trace (resume tick quiet 0 s) = [ERun 0 (CallFn "f")] /\
  heap (resume tick quiet 0 s) = heap s /\
  loops (resume tick failing 0 s') !! 0
    = Some (mkAio 1 (Raised NoResponseFromController) false) /\
  runs_of 0 (trace (run_ops tick quiet [Resume 0; Start 1; Resume 0]
                      (resume tick quiet 0 s))) = 1.
Proof.
  cbv zeta.
  destruct (one_shot_runs_once tick quiet
    (set_aio_task (Some 0) (Task_init 1 KTask (FnCallable "f") None 0 100 0))
    eq_refl) as [_ Hloop].
  destruct (one_shot_runs_once tick failing
    (set_aio_task (Some 0) (Task_init 1 KTask (FnCallable "f") None 0 100 0))
    eq_refl) as [Hexec Hloop'].
  destruct (Hloop
    (run_ops tick quiet
       [New KTask (FnCallable "f") None 0 100 0; Start 1] (initial 0))
    0 1%positive eq_refl eq_refl) as (_ & Hheap & _ & _ & Htr & Hops).
  destruct (Hloop'
    (run_ops tick failing
       [New KTask (FnCallable "f") None 0 100 0; Start 1] (initial 0))
    0 1%positive eq_refl eq_refl) as (_ & _ & _ & Hpc & _).
  split; [exact (Hexec 7)|]. split; [exact Htr|]. split; [exact Hheap|].
  split; [exact Hpc|].
  exact (proj2 (Hops [Resume 0; Start 1; Resume 0])).
Defined.

Section Registry.

Context {W : Type}.
Variable time : W -> Q * W.
Variable run : call -> W -> outcome unit * W.

(** ** The invariant of histories *)

Lemma inv_initial (w : W) : inv (initial w).
Proof.
  split; cbn.
  - intros o t Ht. now rewrite lookup_empty in Ht.
  - intros o Ho. now apply elem_of_nil in Ho.
Qed.

Lemma fresh_not_in_heap (s : state W) : heap s !! fresh (dom (heap s)) = None.
Proof. apply not_elem_of_dom, is_fresh. Qed.

Lemma inv_alloc (s : state W) (t : Task) :
  let self := fresh (dom (heap s)) in
  id t = self -> _task t = None ->
  inv s -> inv (set_heap (<[self := t]> (heap s)) s).
Proof.
  intros self Hid Hnone [Hheap Htasks]. split; cbn.
  - intros o t' Ht'. destruct (decide (self = o)) as [<-|Hne].
    + rewrite lookup_insert_eq in Ht'. now inversion Ht'; subst.
    + rewrite lookup_insert_ne in Ht' by exact Hne. now apply Hheap.
  - intros o Ho. destruct (Htasks o Ho) as (t' & h & Ht' & Ha & Hlt).
    exists t', h. split; [|now split].
    rewrite lookup_insert_ne; [exact Ht'|].
    intros <-. pose proof (fresh_not_in_heap s) as Hf. fold self in Hf.
    congruence.
Qed.

Lemma inv_start (s : state W) self : inv s -> inv (start self s).
Proof.
  intros [Hheap Htasks]. unfold start.
  destruct (heap s !! self) as [t|] eqn:Ht; [|now split].
  destruct (Hheap _ _ Ht) as [Hid Hnone].
  split; cbn [heap tasks loops].
  - intros o t' Ht'. destruct (decide (self = o)) as [<-|Hne].
    + rewrite lookup_insert_eq in Ht'. now inversion Ht'; subst.
    + rewrite lookup_insert_ne in Ht' by exact Hne. now apply Hheap.
  - intros o Ho. rewrite length_app. cbn [length].
    destruct (decide (self = o)) as [<-|Hne].
    + eexists _, _. rewrite lookup_insert_eq.
      split; [reflexivity|]. split; [reflexivity|]. lia.
    + apply elem_of_app in Ho as [Ho|Ho].
      * destruct (Htasks o Ho) as (t' & h & Ht' & Ha & Hlt).
        exists t', h. rewrite lookup_insert_ne by exact Hne.
        split; [exact Ht'|]. split; [exact Ha|]. lia.
      * apply list_elem_of_singleton in Ho. congruence.
Qed.

Lemma inv_same_objects (s s' : state W) :
  heap s' = heap s -> length (loops s') = length (loops s) ->
  tasks s' = tasks s \/ tasks s' = [] ->
  inv s -> inv s'.
Proof.
  intros Hh Hl Ht [Hheap Htasks]. split.
  - rewrite Hh. exact Hheap.
  - rewrite Hh, Hl. destruct Ht as [->| ->]; [exact Htasks|].
    intros o Ho. now apply elem_of_nil in Ho.
Qed.

Lemma inv_resume (s : state W) h : inv s -> inv (resume time run h s).
Proof.
  intros Hinv. unfold resume.
  destruct (loops s !! h) as [a|]; [|exact Hinv].
  destruct (done_pc (pc a)); [exact Hinv|].
  destruct (must_cancel a).
  { eapply inv_same_objects; [..|exact Hinv]; cbn;
      [reflexivity | apply length_insert | now left]. }
  destruct (heap s !! coro_self a) as [t|] eqn:Ht; [|exact Hinv].
  pose proof (advance_fields time run (pc a) t (world s)) as Hf.
  destruct (advance time run (pc a) t (world s)) as [[p' t'] w'].
  cbn in Hf. destruct Hf as (Hid & Hnone & Haio & _).
  destruct Hinv as [Hheap Htasks]. split; cbn [heap tasks loops].
  - intros o t'' Ht''. destruct (decide (coro_self a = o)) as [<-|Hne].
    + rewrite lookup_insert_eq in Ht''. inversion Ht''; subst t''.
      rewrite Hid, Hnone. now apply Hheap.
    + rewrite lookup_insert_ne in Ht'' by exact Hne. now apply Hheap.
  - intros o Ho. rewrite length_insert.
    destruct (Htasks o Ho) as (t0 & h0 & Ht0 & Ha0 & Hlt).
    destruct (decide (coro_self a = o)) as [<-|Hne].
    + exists t', h0. rewrite lookup_insert_eq.
      split; [reflexivity|]. split; [|exact Hlt]. congruence.
    + exists t0, h0. now rewrite lookup_insert_ne.
Qed.

Lemma Task_init_fields self k f nm (d now rnd : Q) :
  id (Task_init self k f nm d now rnd) = self /\
  _task (Task_init self k f nm d now rnd) = None /\
  aio_task (Task_init self k f nm d now rnd) = None.
Proof. destruct f; repeat split. Qed.

Lemma inv_apply_op (s : state W) (o : op) :
  inv s -> inv (apply_op time run s o).
Proof.
  intros Hinv. destruct o; cbn [apply_op].
  - unfold new_task. cbn [snd].
    apply inv_alloc; [apply Task_init_fields..|exact Hinv].
  - unfold new_one_shot, OneShotTask_init. cbn [snd].
    apply inv_alloc; [apply Task_init_fields..|exact Hinv].
  - now apply inv_start.
  - unfold stop. destruct (heap s !! self) as [t|]; [|exact Hinv].
    destruct (_task t) as [h|]; [|exact Hinv]. cbn [snd].
    destruct (cancel_frame h s) as (Hh & Ht & _ & _ & _ & Hl).
    eapply inv_same_objects; [exact Hh | exact Hl | now left | exact Hinv].
  - unfold stopAllTasks.
    destruct (cancel_each_frame (tasks s) s) as (Hh & Ht & _ & _ & _ & Hl).
    destruct (cancel_each (tasks s) s) as [[u|e] s']; cbn [snd] in *.
    + eapply inv_same_objects; [exact Hh | exact Hl | now right | exact Hinv].
    + eapply inv_same_objects; [exact Hh | exact Hl | now left | exact Hinv].
  - destruct cls;
      (eapply inv_same_objects; [..|exact Hinv]; cbn; auto).
  - now apply inv_resume.
Qed.

Lemma inv_run_ops ops (s : state W) : inv s -> inv (run_ops time run ops s).
Proof.
  revert s. induction ops as [|o ops IH]; intros s Hinv; [exact Hinv|].
  rewrite run_ops_cons. apply IH. now apply inv_apply_op.
Qed.

(** ** [stop] *)

(** C2 fails on the code.  [stop] cancels [self._task], a field that
    [__init__] sets to [None] and nothing assigns afterwards ([start] keeps
    the handle of the loop in [self.aio_task]): on every Task of every
    history, [stop] raises [AttributeError] and leaves the state, the pending
    loops included, exactly as it was. *)
Theorem stop_raises_AttributeError ops (w : W) (self : oid) :
  let s := run_ops time run ops (initial w) in
  is_Some (heap s !! self) ->
  stop self s = (Raise AttributeError, s).
Proof.
  intros s [t Ht]. unfold stop. rewrite Ht.
  assert (Hinv : inv s) by apply inv_run_ops, inv_initial.
  destruct (inv_heap s Hinv _ _ Ht) as [_ ->]. reflexivity.
Qed.

(** ** [stopAllTasks] *)

Lemma cancel_each_cancels l (s : state W) :
  (forall o, o ∈ l ->
     exists t h, heap s !! o = Some t /\ aio_task t = Some h /\
                 h < length (loops s)) ->
  fst (cancel_each l s) = Ret () /\
  forall o, o ∈ l ->
    exists t h, heap s !! o = Some t /\ aio_task t = Some h /\
                dead h (snd (cancel_each l s)).
Proof.
  revert s. induction l as [|o l IH]; intros s Hl.
  - split; [reflexivity|]. intros o Ho. now apply elem_of_nil in Ho.
  - destruct (Hl o) as (t & h & Ht & Ha & Hlt); [apply elem_of_cons; now left|].
    cbn [cancel_each]. rewrite Ht, Ha.
    destruct (cancel_frame h s) as (Hh & _ & _ & _ & _ & Hlen).
    destruct (IH (snd (cancel h s))) as [Hret Hdead].
    { intros o' Ho'. rewrite Hh, Hlen. apply Hl, elem_of_cons. now right. }
    split; [exact Hret|].
    intros o' Ho'. apply elem_of_cons in Ho' as [->|Ho'].
    + exists t, h. split; [exact Ht|]. split; [exact Ha|].
      apply cancel_each_keeps_dead. now apply cancel_kills.
    + destruct (Hdead o' Ho') as (t' & h' & Ht' & Ha' & Hd').
      exists t', h'. rewrite Hh in Ht'. now split.
Qed.

Lemma set_tasks_same (s : state W) : tasks s = [] -> set_tasks [] s = s.
Proof. destruct s; cbn; now intros ->. Qed.

(** C6, amended.  In every state a history leads to, [stopAllTasks] returns
    [True] without raising.  Each registry entry is a Task whose [aio_task]
    handle is cancelled (or had finished), and the loop behind that handle
    makes no further run, whatever happens next.  The registry is then empty
    and [number_of_tasks()] is [0] on every class.  On an empty registry the
    call changes nothing, and a second call in a row changes nothing
    either. *)
Theorem stopAllTasks_cancels_and_clears ops (w : W) :
  let s := run_ops time run ops (initial w) in
  let s' := snd (stopAllTasks s) in
  fst (stopAllTasks s) = Ret true /\
  (forall o, o ∈ tasks s ->
     exists t h, heap s !! o = Some t /\ aio_task t = Some h /\
       dead h s' /\
       forall ops',
         runs_of h (trace (run_ops time run ops' s')) = runs_of h (trace s)) /\
  tasks s' = [] /\
  (forall cls, number_of_tasks cls s' = 0) /\
  (tasks s = [] -> s' = s) /\
  stopAllTasks s' = (Ret true, s').
Proof.
  intros s s'.
  assert (Hinv : inv s) by apply inv_run_ops, inv_initial.
  destruct (cancel_each_cancels (tasks s) s (inv_tasks s Hinv)) as [Hret Hdead].
  destruct (cancel_each_frame (tasks s) s) as (_ & _ & _ & _ & Htr & _).
  assert (Hs' : s' = set_tasks [] (snd (cancel_each (tasks s) s))).
  { subst s'. unfold stopAllTasks.
    destruct (cancel_each (tasks s) s) as [[u|e] s1]; [reflexivity|discriminate]. }
  assert (Hfst : fst (stopAllTasks s) = Ret true).
  { unfold stopAllTasks.
    destruct (cancel_each (tasks s) s) as [[u|e] s1]; [reflexivity|discriminate]. }
  split; [exact Hfst|].
  split.
  { intros o Ho. destruct (Hdead o Ho) as (t & h & Ht & Ha & Hd).
    assert (Hd' : dead h s') by (rewrite Hs'; exact Hd).
    exists t, h. split; [exact Ht|]. split; [exact Ha|]. split; [exact Hd'|].
    intros ops'.
    destruct (run_ops_keeps_dead time run h ops' s' Hd') as [_ ->].
    rewrite Hs'. cbn [set_tasks trace]. now rewrite Htr. }
  split; [now rewrite Hs'|].
  split.
  { intros cls. unfold number_of_tasks. rewrite Hs'. cbn.
    now destruct (bool_decide _). }
  split.
  { intros Hnil. rewrite Hs'. revert Hret. rewrite Hnil. cbn. intros _.
    now apply set_tasks_same. }
  rewrite Hs'. reflexivity.
Qed.

(** ** The registry *)

Lemma registry_ids_tasks (s : state W) : inv s -> registry_ids s = tasks s.
Proof.
  intros [Hheap Htasks]. unfold registry_ids, registry.
  induction (tasks s) as [|o l IH]; [reflexivity|].
  destruct (Htasks o) as (t & h & Ht & _); [apply elem_of_cons; now left|].
  cbn. rewrite Ht. cbn. destruct (Hheap _ _ Ht) as [-> _]. f_equal.
  apply IH. intros o' Ho'. apply Htasks, elem_of_cons. now right.
Qed.

Lemma tasks_sublist_started ops (s : state W) (acc : list oid) :
  inv s -> tasks s `sublist_of` acc ->
  tasks (run_ops time run ops s) `sublist_of` started_since_clear ops acc.
Proof.
  revert s acc. induction ops as [|o ops IH]; intros s acc Hinv Hsub;
    [exact Hsub|].
  rewrite run_ops_cons.
  pose proof (inv_apply_op s o Hinv) as Hinv'.
  destruct o; cbn [started_since_clear]; try (apply IH; [exact Hinv'|exact Hsub]).
  - apply IH; [exact Hinv'|]. cbn [apply_op]. unfold start.
    destruct (heap s !! self).
    + cbn [tasks]. now apply sublist_app.
    + now apply sublist_inserts_r.
  - apply IH; [exact Hinv'|]. cbn [apply_op]. unfold stop.
    destruct (heap s !! self) as [t|]; [|exact Hsub].
    destruct (_task t) as [h|]; [|exact Hsub]. cbn [snd].
    now destruct (cancel_frame h s) as (_ & -> & _).
  - apply IH; [exact Hinv'|]. cbn [apply_op].
    destruct (cancel_each_cancels (tasks s) s (inv_tasks s Hinv)) as [Hret _].
    unfold stopAllTasks.
    destruct (cancel_each (tasks s) s) as [[u|e] s1]; [|discriminate].
    cbn. apply sublist_nil.
  - destruct cls; apply IH; try exact Hinv'; try exact Hsub.
    cbn. apply sublist_nil.
  - apply IH; [exact Hinv'|]. cbn [apply_op]. unfold resume.
    destruct (loops s !! h) as [a|]; [|exact Hsub].
    destruct (done_pc (pc a)); [exact Hsub|].
    destruct (must_cancel a); [exact Hsub|].
    destruct (heap s !! coro_self a) as [t|]; [|exact Hsub].
    now destruct (advance time run (pc a) t (world s)) as [[p' t'] w'].
Qed.

(** C8, amended.  When a history calls [start] at most once on each Task
    since the registry was last cleared, no two entries of the registry
    have equal ids. *)
Theorem registry_ids_distinct ops (w : W) :
  NoDup (started_since_clear ops []) ->
  NoDup (registry_ids (run_ops time run ops (initial w))).
Proof.
  intros Hnd.
  rewrite registry_ids_tasks by apply inv_run_ops, inv_initial.
  eapply sublist_NoDup; [exact Hnd|].
  apply tasks_sublist_started; [apply inv_initial | apply sublist_nil].
Qed.

End Registry.

(** The histories used below: one recurring Task, started once; the same
    Task started twice; two Tasks, each started once. *)
Lemma stop_raises_AttributeError_witness :
  let s := run_ops tick quiet
             [New KTask (FnCallable "f") None 10 100 0; Start 1] (initial 0) in
  is_Some (heap s !! 1%positive) /\
  stop 1 s = (Raise AttributeError, s) /\
  runs_of 0 (trace (run_ops tick quiet [Resume 0; Resume 0] (snd (stop 1 s)))) = 2.
Proof.
  cbv zeta.
  assert (Hsome : is_Some
    (heap (run_ops tick quiet
             [New KTask (FnCallable "f") None 10 100 0; Start 1] (initial 0))
       !! 1%positive)) by (eexists; reflexivity).
  split; [exact Hsome|].
  pose proof (stop_raises_AttributeError tick quiet
    [New KTask (FnCallable "f") None 10 100 0; Start 1] 0 1%positive Hsome) as H.
  cbv zeta in H. split; [exact H|].
  rewrite H. reflexivity.
Defined.

Lemma stopAllTasks_cancels_and_clears_witness :
  let s := run_ops tick quiet
             [New KTask (FnCallable "f") None 10 100 0; Start 1;
              New KTask (FnCallable "g") None 0 100 0; Start 2] (initial 0) in
  let s' := snd (stopAllTasks s) in
  number_of_tasks KTask s = 2 /\
  number_of_tasks KTask s' = 0 /\
  dead 0 s' /\ dead 1 s' /\
  runs_of 0 (trace (run_ops tick quiet [Resume 0; Resume 1; Resume 0] s')) = 0.
Proof.
  cbv zeta.
  pose proof (stopAllTasks_cancels_and_clears tick quiet
    [New KTask (FnCallable "f") None 10 100 0; Start 1;
     New KTask (FnCallable "g") None 0 100 0; Start 2] 0) as H.
  cbv zeta in H. destruct H as (_ & Hcancel & _ & Hnum & _ & _).
  split; [reflexivity|]. split; [apply Hnum|].
  destruct (Hcancel 1%positive) as (t1 & h1 & Ht1 & Ha1 & Hd1 & Hr1);
    [apply list_elem_of_here|].
  destruct (Hcancel 2%positive) as (t2 & h2 & Ht2 & Ha2 & Hd2 & _);
    [apply list_elem_of_further, list_elem_of_here|].
  vm_compute in Ht1. injection Ht1 as <-. injection Ha1 as <-.
  vm_compute in Ht2. injection Ht2 as <-. injection Ha2 as <-.
  split; [exact Hd1|]. split; [exact Hd2|].
  rewrite Hr1. reflexivity.
Defined.

(** C6 as stated fails.  A Task started twice has two loops but one
    [aio_task] field, which holds the second.  [stopAllTasks] cancels that
    one (twice) and clears the registry; the first loop of this registered
    Task is still pending and runs its payload again. *)
Lemma stopAllTasks_misses_first_loop :
  let s := run_ops tick quiet
             [New KTask (FnCallable "f") None 10 100 0; Start 1; Start 1]
             (initial 0) in
  let s' := snd (stopAllTasks s) in
  tasks s = [1%positive; 1%positive] /\
  coro_self <$> loops s !! 0 = Some 1%positive /\
  number_of_tasks KTask s' = 0 /\
  runs_of 0 (trace s') = 0 /\
  runs_of 0 (trace (run_ops tick quiet [Resume 0; Resume 0] s')) = 2.
Proof. cbv zeta. repeat split. Qed.

Lemma registry_ids_distinct_witness :
  let ops := [New KTask (FnCallable "f") None 10 100 0;
              New KTask (FnCallable "g") None 10 100 0;
              Start 1; Start 2; StopAllTasks; Start 1] in
  NoDup (started_since_clear ops []) /\
  NoDup (registry_ids (run_ops tick quiet ops (initial 0))).
Proof.
  cbv zeta.
  assert (Hnd : NoDup (started_since_clear
    [New KTask (FnCallable "f") None 10 100 0;
     New KTask (FnCallable "g") None 10 100 0;
     Start 1; Start 2; StopAllTasks; Start 1] [])).
  { cbn. apply NoDup_singleton. }
  split; [exact Hnd|].
  exact (registry_ids_distinct tick quiet _ 0 Hnd).
Defined.

(** C8 as stated fails.  [start] appends without looking: a Task started
    twice is in the registry twice. *)
Lemma registry_holds_id_twice :
  let s := run_ops tick quiet
             [New KTask (FnCallable "f") None 10 100 0; Start 1; Start 1]
             (initial 0) in
  registry_ids s = [1%positive; 1%positive] /\ ~ NoDup (registry_ids s).
Proof.
  cbv zeta.
  assert (Hids : registry_ids (run_ops tick quiet
            [New KTask (FnCallable "f") None 10 100 0; Start 1; Start 1]
            (initial 0)) = [1%positive; 1%positive]) by reflexivity.
  split; [exact Hids|].
  rewrite Hids. intros Hnd. apply NoDup_cons in Hnd as [Hnotin _].
  apply Hnotin, list_elem_of_here.
Qed.

End TaskManagerSpec.

(** * Properties of the liveness sweep *)

Module LiteSpec.
Import Lite.

Section SweepProps.

Context {W : Type}.
Variable ping_op : oid -> (oid -> device) * W -> outcome unit * ((oid -> device) * W).
Variable disconnect_op :
  oid -> bool -> (oid -> device) * W -> outcome unit * ((oid -> device) * W).
Variable connect_op : oid -> (oid -> device) * W -> outcome unit * ((oid -> device) * W).
Variable poll_op : oid -> Z -> (oid -> device) * W -> outcome unit * ((oid -> device) * W).
Variable read_op : string -> (oid -> device) * W -> outcome pyvalue * ((oid -> device) * W).

Local Abbreviation check := (check ping_op disconnect_op connect_op poll_op read_op).
Local Abbreviation sweep := (sweep ping_op disconnect_op connect_op poll_op read_op).
Local Abbreviation ping_registered_devices :=
  (ping_registered_devices ping_op disconnect_op connect_op poll_op read_op).

(** ** The calls a computation can make *)

Lemma emits_ret {A} (P : event -> Prop) (a : A) : emits (W:=W) P (ret a).
Proof. intros s. exists []. cbn. now rewrite app_nil_r. Qed.

Lemma emits_raise {A} (P : event -> Prop) e : emits (W:=W) (A:=A) P (raise e).
Proof. intros s. exists []. cbn. now rewrite app_nil_r. Qed.

Lemma emits_get (P : event -> Prop) each : emits (W:=W) P (get each).
Proof. intros s. exists []. cbn. now rewrite app_nil_r. Qed.

Lemma emits_assign (P : event -> Prop) each n :
  emits (W:=W) P (assign_ping_failures each n).
Proof. intros s. exists []. cbn. now rewrite app_nil_r. Qed.

Lemma emits_external {A} (P : event -> Prop) e
    (f : (oid -> device) * W -> outcome A * ((oid -> device) * W)) :
  P e -> emits P (external e f).
Proof.
  intros He s. exists [e]. unfold external.
  destruct (f (objects s, world s)) as [r [o w]]. cbn.
  split; [reflexivity|]. split; [|reflexivity]. now constructor.
Qed.

Lemma emits_bind {A B} (P : event -> Prop) (m : M W A) (k : A -> M W B) :
  emits P m -> (forall a, emits P (k a)) -> emits P (m ≫= k).
Proof.
  intros Hm Hk s. unfold mbind, M_bind, bind.
  destruct (Hm s) as (ev1 & Hc1 & HP1 & Hr1).
  destruct (m s) as [[a|e] s1]; cbn [snd] in *.
  - destruct (Hk a s1) as (ev2 & Hc2 & HP2 & Hr2).
    exists (ev1 ++ ev2). rewrite Hc2, Hc1, Hr2, Hr1, app_assoc.
    split; [reflexivity|]. split; [|reflexivity]. now apply Forall_app.
  - now exists ev1.
Qed.

Lemma emits_try_except {A} (P : event -> Prop) (body handler : M W A) catches :
  emits P body -> emits P handler -> emits P (try_except body catches handler).
Proof.
  intros Hb Hh s. unfold try_except.
  destruct (Hb s) as (ev1 & Hc1 & HP1 & Hr1).
  destruct (body s) as [[a|e] s1]; cbn [snd] in *.
  - now exists ev1.
  - destruct (catches e); [|now exists ev1].
    destruct (Hh s1) as (ev2 & Hc2 & HP2 & Hr2).
    exists (ev1 ++ ev2). rewrite Hc2, Hc1, Hr2, Hr1, app_assoc.
    split; [reflexivity|]. split; [|reflexivity]. now apply Forall_app.
Qed.

Lemma emits_weaken {A} (P Q : event -> Prop) (m : M W A) :
  (forall e, P e -> Q e) -> emits P m -> emits Q m.
Proof.
  intros HPQ Hm s. destruct (Hm s) as (evs & Hc & HP & Hr).
  exists evs. split; [exact Hc|]. split; [|exact Hr].
  eapply Forall_impl; eauto.
Qed.

(** The check of one device only makes calls on that device or on the
    network, none of which takes a device out of the registry. *)
Lemma check_emits each :
  emits (fun e => (subject e = Some each \/ subject e = None)
                  /\ is_removal e = false) (check each).
Proof.
  unfold Lite.check.
  apply emits_bind; [apply emits_get|]. intros d.
  destruct (ping_capable (class_of d)).
  - apply emits_try_except.
    + apply emits_bind; [apply emits_external; cbn; auto|]. intros _.
      apply emits_bind; [apply emits_get|]. intros d'.
      destruct (3 <? _)%Z; [apply emits_raise | apply emits_ret].
    + apply emits_external. cbn. auto.
  - cbv zeta.
    apply emits_bind; [apply emits_external; cbn; auto|]. intros v.
    apply emits_bind; [apply emits_get|]. intros d'.
    destruct (py_eq_str v _); [|apply emits_ret].
    apply emits_bind; [apply emits_assign|]. intros _.
    apply emits_bind; [apply emits_external; cbn; auto|]. intros _.
    apply emits_bind; [apply emits_get|]. intros d''.
    apply emits_external. cbn. auto.
Qed.

Lemma sweep_emits l :
  emits (fun e => (forall o, subject e = Some o -> o ∈ l)
                  /\ is_removal e = false) (sweep l).
Proof.
  induction l as [|each l IH]; cbn [Lite.sweep].
  - apply emits_ret.
  - apply emits_bind.
    + eapply emits_weaken; [|apply check_emits].
      intros e [[He|He] Hr]; (split; [|exact Hr]); intros o Ho.
      * assert (o = each) as -> by congruence. apply elem_of_cons. now left.
      * congruence.
    + intros _. eapply emits_weaken; [|exact IH].
      intros e [He Hr]. split; [|exact Hr].
      intros o Ho. apply elem_of_cons. right. now apply He.
Qed.

(** ** Sweeping a list in two parts *)

Lemma sweep_app l1 l2 (s : network W) :
  sweep (l1 ++ l2) s
  = match sweep l1 s with
    | (Ret _, s1) => sweep l2 s1
    | (Raise e, s1) => (Raise e, s1)
    end.
Proof.
  revert s. induction l1 as [|each l1 IH]; intros s; [reflexivity|].
  cbn [app Lite.sweep]. unfold mbind, M_bind, bind.
  destruct (check each s) as [[u|e] s1]; [apply IH|reflexivity].
Qed.

Lemma sweep_cons each l (s : network W) :
  sweep (each :: l) s
  = match check each s with
    | (Ret _, s1) => sweep l s1
    | (Raise e, s1) => (Raise e, s1)
    end.
Proof. reflexivity. Qed.

Lemma calls_on_app each tr1 tr2 :
  calls_on each (tr1 ++ tr2) = calls_on each tr1 ++ calls_on each tr2.
Proof. apply filter_app. Qed.

Lemma calls_on_elsewhere each (l : list oid) evs :
  Forall (fun e => (forall o, subject e = Some o -> o ∈ l)
                   /\ is_removal e = false) evs ->
  each ∉ l -> calls_on each evs = [].
Proof.
  intros Hall Hnotin. induction Hall as [|e evs [He _] _ IH]; [reflexivity|].
  unfold calls_on. rewrite filter_cons.
  destruct (decide (subject e = Some each)) as [Hs|_]; [|exact IH].
  destruct Hnotin. now apply He.
Qed.

Lemma made_during_app (s s' : network W) evs :
  calls s' = calls s ++ evs -> made_during s s' = evs.
Proof. intros H. unfold made_during. rewrite H. apply drop_app_length. Qed.

(** The sweep of [pre ++ each :: post], when it gets past [pre]: the calls
    made are those of [pre], which are not on [each], then those of the
    check of [each], then calls that are not on [each] either. *)
Lemma sweep_around pre each post (s s1 : network W) :
  sweep pre s = (Ret (), s1) ->
  each ∉ pre -> each ∉ post ->
  exists ev1 ev3,
    calls s1 = calls s ++ ev1 /\
    calls (snd (sweep (pre ++ each :: post) s))
      = calls (snd (check each s1)) ++ ev3 /\
    calls_on each ev1 = [] /\ calls_on each ev3 = [] /\
    Forall (fun e => is_removal e = false) ev1 /\
    Forall (fun e => is_removal e = false) ev3 /\
    _registered_devices s1 = _registered_devices s /\
    _registered_devices (snd (sweep (pre ++ each :: post) s))
      = _registered_devices (snd (check each s1)).
Proof.
  intros Hpre Hn1 Hn3.
  destruct (sweep_emits pre s) as (ev1 & Hc1 & HP1 & Hr1).
  rewrite Hpre in Hc1, Hr1. cbn [snd] in Hc1, Hr1.
  rewrite sweep_app, Hpre, sweep_cons.
  destruct (check each s1) as [[u|e] s2] eqn:Hcheck; cbn [snd].
  - destruct (sweep_emits post s2) as (ev3 & Hc3 & HP3 & Hr3).
    exists ev1, ev3. split; [exact Hc1|]. split; [exact Hc3|].
    split; [eapply calls_on_elsewhere; eauto|].
    split; [eapply calls_on_elsewhere; eauto|].
    split; [eapply Forall_impl; [exact HP1|]; now intros e [_ ?]|].
    split; [eapply Forall_impl; [exact HP3|]; now intros e [_ ?]|].
    now split.
  - exists ev1, []. rewrite app_nil_r. split; [exact Hc1|].
    split; [reflexivity|].
    split; [eapply calls_on_elsewhere; eauto|]. split; [reflexivity|].
    split; [eapply Forall_impl; [exact HP1|]; now intros e' [_ ?]|].
    split; [constructor|]. now split.
Qed.

(** ** The check of one device, case by case *)

Lemma check_numerous_failures each (s1 : network W) o2 w2 :
  ping_capable (class_of (objects s1 each)) = true ->
  ping_op each (objects s1, world s1) = (Ret (), (o2, w2)) ->
  (3 < ping_failures (properties (o2 each)))%Z ->
  check each s1
  = (fst (disconnect_op each false (o2, w2)),
     mkNetwork (_registered_devices s1)
       (fst (snd (disconnect_op each false (o2, w2))))
       (snd (snd (disconnect_op each false (o2, w2))))
       (calls s1 ++ [EPing each; EDisconnect each false])).
Proof.
  intros Hcap Hping Hgt. apply Z.ltb_lt in Hgt.
  unfold Lite.check, mbind, M_bind, bind, get, try_except, external, raise.
  rewrite Hcap, Hping. cbn. rewrite Hgt. cbn.
  destruct (disconnect_op each false (o2, w2)) as [r [o3 w3]]. cbn.
  now rewrite <- app_assoc.
Qed.

Lemma check_ping_raises each (s1 : network W) e o2 w2 :
  ping_capable (class_of (objects s1 each)) = true ->
  ping_op each (objects s1, world s1) = (Raise e, (o2, w2)) ->
  e <> NumerousPingFailures ->
  check each s1
  = (Raise e,
     mkNetwork (_registered_devices s1) o2 w2 (calls s1 ++ [EPing each])).
Proof.
  intros Hcap Hping Hne.
  unfold Lite.check, mbind, M_bind, bind, get, try_except, external, raise.
  rewrite Hcap, Hping. cbn. now rewrite bool_decide_eq_false_2.
Qed.

Lemma check_read_raises each (s1 : network W) e o2 w2 :
  ping_capable (class_of (objects s1 each)) = false ->
  read_op (objectName_query (address (properties (objects s1 each)))
             (device_id (properties (objects s1 each))))
    (objects s1, world s1) = (Raise e, (o2, w2)) ->
  check each s1
  = (Raise e,
     mkNetwork (_registered_devices s1) o2 w2
       (calls s1
        ++ [ERead (objectName_query (address (properties (objects s1 each)))
                     (device_id (properties (objects s1 each))))])).
Proof.
  intros Hcap Hread.
  unfold Lite.check, mbind, M_bind, bind, get, external.
  rewrite Hcap. cbn. now rewrite Hread.
Qed.


(** ** The registry of devices *)

Lemma register_device_NoDup dev (s : network W) :
  NoDup (registered_devices s) -> NoDup (registered_devices (register_device dev s)).
Proof.
  intros Hnd. unfold register_device, registered_devices in *.
  destruct (bool_decide (dev ∈ _registered_devices s)) eqn:Hin; [exact Hnd|].
  apply bool_decide_eq_false in Hin. cbn.
  apply NoDup_app. split; [exact Hnd|]. split; [|apply NoDup_singleton].
  intros o Ho Ho'. apply list_elem_of_singleton in Ho'. now subst.
Qed.

Lemma registry_around pre each post (s : network W) :
  registered_devices s = pre ++ each :: post ->
  NoDup (registered_devices s) ->
  (each ∉ pre) /\ (each ∉ post).
Proof.
  intros -> Hnd. apply NoDup_app in Hnd as (_ & Hdisj & Hnd).
  apply NoDup_cons in Hnd as [Hpost _]. split; [|exact Hpost].
  intros Hpre. apply (Hdisj each Hpre), list_elem_of_here.
Qed.

(** ** The sweep *)

(** C1 fails on the code.  The only exception the sweep handles is the
    [NumerousPingFailures] it raises itself; there is no handler at all
    around [self.read].  When the read of a device that is not ping-capable
    raises, [ping_registered_devices] raises the same exception at once: the
    state it leaves is the one of the failed read, and no device registered
    after this one has been looked at. *)
Theorem unanswered_read_aborts_sweep pre each post (s s1 : network W) e o2 w2 :
  registered_devices s = pre ++ each :: post ->
  sweep pre s = (Ret (), s1) ->
  ping_capable (class_of (objects s1 each)) = false ->
  read_op (objectName_query (address (properties (objects s1 each)))
             (device_id (properties (objects s1 each))))
    (objects s1, world s1) = (Raise e, (o2, w2)) ->
  ping_registered_devices s
  = (Raise e,
     mkNetwork (_registered_devices s1) o2 w2
       (calls s1
        ++ [ERead (objectName_query (address (properties (objects s1 each)))
                     (device_id (properties (objects s1 each))))])).
Proof.
  intros Hreg Hpre Hcap Hread.
  unfold Lite.ping_registered_devices. rewrite Hreg, sweep_app, Hpre, sweep_cons.
  now rewrite (check_read_raises each s1 e o2 w2 Hcap Hread).
Qed.

(** The same holds of a ping that raises anything but
    [NumerousPingFailures]. *)
Lemma failed_ping_aborts_sweep pre each post (s s1 : network W) e o2 w2 :
  registered_devices s = pre ++ each :: post ->
  sweep pre s = (Ret (), s1) ->
  ping_capable (class_of (objects s1 each)) = true ->
  ping_op each (objects s1, world s1) = (Raise e, (o2, w2)) ->
  e <> NumerousPingFailures ->
  ping_registered_devices s
  = (Raise e,
     mkNetwork (_registered_devices s1) o2 w2 (calls s1 ++ [EPing each])).
Proof.
  intros Hreg Hpre Hcap Hping Hne.
  unfold Lite.ping_registered_devices. rewrite Hreg, sweep_app, Hpre, sweep_cons.
  now rewrite (check_ping_raises each s1 e o2 w2 Hcap Hping Hne).
Qed.

(** C4. In a sweep that gets to a ping-capable device whose ping returns
    and leaves [ping_failures] above 3, the calls made on that device are
    its ping and one [disconnect(unregister=False)], nothing else; no call
    of the sweep takes a device out of the registry, and the registry is
    the same after the sweep as before. *)
Theorem unresponsive_device_is_disconnected
    pre each post (s s1 : network W) o2 w2 :
  registered_devices s = pre ++ each :: post ->
  NoDup (registered_devices s) ->
  sweep pre s = (Ret (), s1) ->
  ping_capable (class_of (objects s1 each)) = true ->
  ping_op each (objects s1, world s1) = (Ret (), (o2, w2)) ->
  (3 < ping_failures (properties (o2 each)))%Z ->
  let s' := snd (ping_registered_devices s) in
  calls_on each (made_during s s') = [EPing each; EDisconnect each false] /\
  Forall (fun e => is_removal e = false) (made_during s s') /\
  registered_devices s' = registered_devices s.
Proof.
  intros Hreg Hnd Hpre Hcap Hping Hgt s'.
  destruct (registry_around pre each post s Hreg Hnd) as [Hn1 Hn3].
  destruct (sweep_around pre each post s s1 Hpre Hn1 Hn3)
    as (ev1 & ev3 & Hc1 & Hc3 & Ho1 & Ho3 & Hr1 & Hr3 & Hreg1 & Hreg3).
  rewrite (check_numerous_failures each s1 o2 w2 Hcap Hping Hgt) in Hc3, Hreg3.
  cbn [snd calls _registered_devices] in Hc3, Hreg3.
  assert (Hmade : made_during s s'
                  = ev1 ++ [EPing each; EDisconnect each false] ++ ev3).
  { apply made_during_app. subst s'. unfold Lite.ping_registered_devices.
    rewrite Hreg, Hc3, Hc1, <- !app_assoc. reflexivity. }
  rewrite Hmade. split; [|split].
  - rewrite !calls_on_app, Ho1, Ho3, app_nil_r. cbn [app].
    unfold calls_on. rewrite !filter_cons, filter_nil. cbn [subject].
    now destruct (decide (Some each = Some each)).
  - apply Forall_app. split; [exact Hr1|].
    apply Forall_app. split; [|exact Hr3]. now repeat constructor.
  - subst s'. unfold Lite.ping_registered_devices, registered_devices in *.
    transitivity (_registered_devices s1); [|exact Hreg1].
    rewrite Hreg. exact Hreg3.
Qed.




End SweepProps.

(** ** The sweep on the example network *)

(** Device 1 does not answer the read: the sweep raises and device 2 is
    never pinged. *)
Lemma unanswered_read_aborts_sweep_witness :
  let r := ping_registered_devices missed_ping
             (fun _ _ => returns_at_once ()) (fun _ => returns_at_once ())
             (fun _ _ => returns_at_once ()) no_response example_network in
  fst r = Raise NoResponseFromController /\
  calls (snd r) = [ERead "2:5 device 5012 objectName"] /\
  calls_on 2 (calls (snd r)) = [].
Proof.
  cbv zeta.
  pose proof (unanswered_read_aborts_sweep missed_ping
    (fun _ _ => returns_at_once ()) (fun _ => returns_at_once ())
    (fun _ _ => returns_at_once ()) no_response
    [] 1%positive [2%positive] example_network example_network
    NoResponseFromController example_objects tt
    eq_refl eq_refl eq_refl eq_refl) as H.
  rewrite H. repeat split.
Defined.

(** Device 1 answers with its name and device 2 misses a fourth ping. *)
Lemma unresponsive_device_is_disconnected_witness :
  let s' := snd (ping_registered_devices missed_ping
                   (fun _ _ => returns_at_once ()) (fun _ => returns_at_once ())
                   (fun _ _ => returns_at_once ()) answers example_network) in
  calls_on 2 (made_during example_network s')
    = [EPing 2; EDisconnect 2 false] /\
  registered_devices s' = [1%positive; 2%positive].
Proof.
  cbv zeta.
  assert (Hnd : NoDup (registered_devices example_network)).
  { apply NoDup_cons. split; [|apply NoDup_singleton].
    intros Hin. apply list_elem_of_singleton in Hin. discriminate. }
  pose proof (unresponsive_device_is_disconnected missed_ping
    (fun _ _ => returns_at_once ()) (fun _ => returns_at_once ())
    (fun _ _ => returns_at_once ()) answers
    [1%positive] 2%positive [] example_network
    (snd (sweep missed_ping
            (fun _ _ => returns_at_once ()) (fun _ => returns_at_once ())
            (fun _ _ => returns_at_once ()) answers [1%positive] example_network))
    (<[2%positive := set_ping_failures 4 (example_objects 2%positive)]>
       (<[1%positive := set_ping_failures 0 (example_objects 1%positive)]>
          example_objects))
    tt eq_refl Hnd eq_refl eq_refl eq_refl eq_refl) as H.
  cbv zeta in H. destruct H as (Hcalls & _ & Hreg).
  split; [exact Hcalls | exact Hreg].
Defined.



End LiteSpec.

(** * Further properties of the task manager *)

Module TaskManagerExtra.
Import TaskManager.






Section Histories.

Context {W : Type}.
Variable time : W -> Q * W.
Variable run : call -> W -> outcome unit * W.

(** ** Properties every Task of every history has *)

(** A property of Tasks that [__init__] establishes and that [start] and a
    pass of the coroutine keep holds of every Task a history leads to. *)
Lemma heap_invariant (P : Task -> Prop) :
  (forall self k f nm d now rnd, P (Task_init self k f nm d now rnd)) ->
  (forall t h, P t -> P (set_aio_task h t)) ->
  (forall p t w, P t -> P (snd (fst (advance time run p t w)))) ->
  forall ops (s : state W),
    (forall o t, heap s !! o = Some t -> P t) ->
    forall o t, heap (run_ops time run ops s) !! o = Some t -> P t.
Proof.
  intros Hinit Hset Hadv ops.
  induction ops as [|op ops IH]; intros s Hs; [exact Hs|].
  rewrite TaskManagerSpec.run_ops_cons. apply IH. clear IH.
  intros o t. destruct op; cbn [apply_op].
  - unfold new_task. cbn [snd heap set_heap]. intros Ht.
    apply lookup_insert_Some in Ht as [[_ <-]|[_ Ht]]; [apply Hinit|eauto].
  - unfold new_one_shot, OneShotTask_init. cbn [snd heap set_heap]. intros Ht.
    apply lookup_insert_Some in Ht as [[_ <-]|[_ Ht]]; [apply Hinit|eauto].
  - unfold start. destruct (heap s !! self) as [t0|] eqn:Ht0; [|apply Hs].
    cbn [heap]. intros Ht.
    apply lookup_insert_Some in Ht as [[_ <-]|[_ Ht]]; [|eauto].
    apply Hset. eauto.
  - unfold stop. destruct (heap s !! self) as [t0|]; [|apply Hs].
    destruct (_task t0) as [h|]; [|apply Hs]. cbn [snd].
    destruct (TaskManagerSpec.cancel_frame h s) as (-> & _). apply Hs.
  - unfold stopAllTasks.
    destruct (TaskManagerSpec.cancel_each_frame (tasks s) s) as (Hh & _).
    destruct (cancel_each (tasks s) s) as [[u|e] s']; cbn in *;
      rewrite Hh; apply Hs.
  - destruct cls; apply Hs.
  - unfold resume. destruct (loops s !! h) as [a|]; [|apply Hs].
    destruct (done_pc (pc a)); [apply Hs|].
    destruct (must_cancel a); [apply Hs|].
    destruct (heap s !! coro_self a) as [t0|] eqn:Ht0; [|apply Hs].
    pose proof (Hadv (pc a) t0 (world s) (Hs _ _ Ht0)) as HP.
    destruct (advance time run (pc a) t0 (world s)) as [[p' t'] w'].
    cbn [heap]. intros Ht.
    apply lookup_insert_Some in Ht as [[_ <-]|[_ Ht]]; [exact HP|eauto].
Qed.

(** ** One pass of the loop *)

Lemma iteration_raises (t : Task) (w : W) e w2 :
  invoke_payload run t (snd (time w)) = (Raise e, w2) ->
  iteration time run t w
  = (Raise e,
     set_average_latency
       ((average_latency t + (fst (time w) - next_execution t)) / 2)%Q
       (set_count (S (count t)) t),
     w2).
Proof.
  intros H. unfold iteration. destruct (time w) as [st w1]. cbn [fst snd] in *.
  change (invoke_payload run (set_average_latency _ (set_count _ t)) w1)
    with (invoke_payload run t w1).
  now rewrite H.
Qed.

Lemma iteration_returns (t : Task) (w : W) u w2 :
  invoke_payload run t (snd (time w)) = (Ret u, w2) ->
  exists t',
    iteration time run t w = (Ret (), t', snd (time (snd (time w2)))) /\
    count t' = S (count t) /\
    previous_execution t' = Some (fst (time w)) /\
    execution_time t' = (fst (time w2) - fst (time w))%Q /\
    next_execution t' = (fst (time (snd (time w2))) + delay t)%Q /\
    delay t' = delay t /\ id t' = id t /\ fn t' = fn t /\ args t' = args t /\
    klass_of t' = klass_of t /\ _kwargs t' = _kwargs t /\
    aio_task t' = aio_task t.
Proof.
  intros H. unfold iteration. destruct (time w) as [st w1]. cbn [fst snd] in *.
  change (invoke_payload run (set_average_latency _ (set_count _ t)) w1)
    with (invoke_payload run t w1).
  rewrite H. destruct (time w2) as [n1 w3]. cbn [fst snd].
  destruct (time w3) as [n2 w4]. cbn [fst snd]. eexists. split; [reflexivity|].
  destruct (truthy_time _); cbn; repeat split.
Qed.



(** ** Passes on the event loop *)

Lemma advance_recurring (p : coro_pc) (t : Task) (w : W) :
  done_pc p = false -> (0 < delay t)%Q ->
  advance time run p t w
  = (match fst (fst (iteration time run t w)) with
     | Raise e => Raised e
     | Ret _ => Sleeping
     end,
     snd (fst (iteration time run t w)), snd (iteration time run t w)).
Proof.
  intros Hp Hd. apply TaskManagerSpec.Qgt_bool_true in Hd.
  destruct p; cbn [done_pc advance] in *; try discriminate.
  - unfold execute. rewrite Hd.
    now destruct (iteration time run t w) as [[[u|e] t'] w'].
  - now destruct (iteration time run t w) as [[[u|e] t'] w'].
Qed.

Lemma resume_recurring (s : state W) h self p t :
  loops s !! h = Some (mkAio self p false) -> done_pc p = false ->
  heap s !! self = Some t -> (0 < delay t)%Q ->
  resume time run h s
  = mkState (<[self := snd (fst (iteration time run t (world s)))]> (heap s))
      (tasks s) (shadowed s)
      (<[h := mkAio self
                (match fst (fst (iteration time run t (world s))) with
                 | Raise e => Raised e
                 | Ret _ => Sleeping
                 end) false]> (loops s))
      (snd (iteration time run t (world s)))
      (trace s ++ [ERun h (payload_call t)]).
Proof.
  intros Hh Hp Ht Hd. unfold resume. rewrite Hh. cbn [pc must_cancel coro_self].
  rewrite Hp, Ht, (advance_recurring p t (world s) Hp Hd). reflexivity.
Qed.

(** X4. A pass of a recurring Task whose payload raises: the exception
    ends the loop, which is then done and never runs again.  The pass has
    been counted and has updated [average_latency], but
    [previous_execution], [next_execution], [execution_time] and
    [average_execution_delay] still tell of the pass before. *)
Theorem failed_pass_ends_loop (s : state W) h self p t e w2 :
  loops s !! h = Some (mkAio self p false) -> done_pc p = false ->
  heap s !! self = Some t -> (0 < delay t)%Q ->
  invoke_payload run t (snd (time (world s))) = (Raise e, w2) ->
  let s' := resume time run h s in
  loops s' !! h = Some (mkAio self (Raised e) false) /\
  (exists t', heap s' !! self = Some t' /\
     count t' = S (count t) /\
     average_latency t'
     = ((average_latency t + (fst (time (world s)) - next_execution t)) / 2)%Q /\
     previous_execution t' = previous_execution t /\
     next_execution t' = next_execution t /\
     execution_time t' = execution_time t /\
     average_execution_delay t' = average_execution_delay t) /\
  (aio_task t = Some h -> done self s' = true) /\
  forall ops,
    runs_of h (trace (run_ops time run ops s')) = S (runs_of h (trace s)).
Proof.
  intros Hh Hp Ht Hd Hpay s'.
  assert (Hlt : h < length (loops s)) by (eapply lookup_lt_Some; eauto).
  assert (Hs' : s' = mkState
    (<[self := set_average_latency
         ((average_latency t + (fst (time (world s)) - next_execution t)) / 2)%Q
         (set_count (S (count t)) t)]> (heap s))
    (tasks s) (shadowed s)
    (<[h := mkAio self (Raised e) false]> (loops s))
    w2 (trace s ++ [ERun h (payload_call t)])).
  { subst s'. rewrite (resume_recurring s h self p t Hh Hp Ht Hd).
    now rewrite (iteration_raises t (world s) e w2 Hpay). }
  assert (Hloop : loops s' !! h = Some (mkAio self (Raised e) false)).
  { rewrite Hs'. cbn [loops]. now apply list_lookup_insert_eq. }
  split; [exact Hloop|]. split; [|split].
  - eexists. rewrite Hs'. cbn [heap]. rewrite lookup_insert_eq.
    split; [reflexivity|]. cbn. repeat split.
  - intros Ha. unfold done. rewrite Hs' at 1. cbn [heap].
    rewrite lookup_insert_eq. cbn [aio_task set_average_latency set_count].
    rewrite Ha, Hloop. reflexivity.
  - intros ops.
    assert (Hdead : dead h s') by (eexists; split; [exact Hloop|reflexivity]).
    destruct (TaskManagerSpec.run_ops_keeps_dead time run h ops s' Hdead)
      as [_ ->].
    rewrite Hs'. cbn [trace]. rewrite TaskManagerSpec.runs_of_snoc.
    destruct (decide (h = h)); [lia|congruence].
Qed.


(** X6. Whatever delay is asked for, negative ones included, the delay a
    Task works with is [0] or at least [5]; this holds of every Task at
    every point of every history. *)
Theorem delay_zero_or_floor ops (w : W) (o : oid) (t : Task) :
  heap (run_ops time run ops (initial w)) !! o = Some t ->
  delay t = 0%Q \/ (5 <= delay t)%Q.
Proof.
  revert o t.
  apply (heap_invariant (fun t => delay t = 0%Q \/ (5 <= delay t)%Q)).
  - intros self k f nm d now rnd.
    assert (Ht : delay (Task_init self k f nm d now rnd)
             = if Qgt_bool d 0 then (if Qge_bool d 5 then d else 5%Q) else 0%Q)
      by (destruct f; reflexivity).
    rewrite Ht. destruct (Qgt_bool d 0); [|now left].
    destruct (Qge_bool d 5) eqn:Hge; right.
    + now apply TaskManagerSpec.Qge_bool_true.
    + apply Qle_refl.
  - intros t h Ht. exact Ht.
  - intros p t w0 Ht.
    destruct (TaskManagerSpec.advance_fields time run p t w0) as (_ & _ & _ & ->).
    exact Ht.
  - intros o t Ht. cbn in Ht. now rewrite lookup_empty in Ht.
Qed.

Lemma invoke_payload_clock clock (t : Task) (w : W) :
  monotonic time run clock ->
  (clock w <= clock (snd (invoke_payload run t w)))%Q.
Proof.
  intros (_ & _ & Hrun). unfold invoke_payload, await_call.
  destruct (payload_call t) as [f a|f|o kw]; try apply Hrun.
  destruct (overrides_task (klass_of t)); [apply Hrun|].
  destruct kw as [[|? ?]|]; apply Qle_refl.
Qed.

(** X7. With a clock that never goes back, every Task of every history
    has a non-negative [execution_time] and, once a pass has completed, is
    next due no earlier than the start of that pass:
    [previous_execution <= next_execution].  Both facts rest only on a
    later reading of the clock being no smaller than an earlier one and on
    the delay not being negative, so that they do not depend on the sums
    being exact. *)
Theorem timing_consistent clock ops (w : W) (o : oid) (t : Task) :
  monotonic time run clock ->
  heap (run_ops time run ops (initial w)) !! o = Some t ->
  (0 <= execution_time t)%Q /\
  forall p, previous_execution t = Some p -> (p <= next_execution t)%Q.
Proof.
  intros Hmono Ht.
  enough (H : (0 <= execution_time t)%Q /\ (0 <= delay t)%Q /\
              forall p, previous_execution t = Some p ->
                        (p <= next_execution t)%Q) by tauto.
  revert o t Ht.
  apply (heap_invariant (fun t =>
    (0 <= execution_time t)%Q /\ (0 <= delay t)%Q /\
    forall p, previous_execution t = Some p -> (p <= next_execution t)%Q)).
  - intros self k f nm d now rnd.
    assert (Hd : (0 <= delay (Task_init self k f nm d now rnd))%Q).
    { destruct f; cbn [Task_init delay];
        (destruct (Qgt_bool d 0) eqn:Hgt; [|apply Qle_refl]);
        (destruct (Qge_bool d 5) eqn:Hge; [|discriminate]);
        apply TaskManagerSpec.Qge_bool_true in Hge; lra. }
    destruct f; (split; [apply Qle_refl|]; split; [exact Hd | discriminate]).
  - intros t h Ht. exact Ht.
  - intros p t w0 Ht.
    assert (Hit : forall w1,
      let t' := snd (fst (iteration time run t w1)) in
      (0 <= execution_time t')%Q /\ (0 <= delay t')%Q /\
      forall p, previous_execution t' = Some p -> (p <= next_execution t')%Q).
    { intros w1.
      destruct (invoke_payload run t (snd (time w1))) as [[u|e] w2] eqn:Hinv.
      - destruct (iteration_returns t w1 u w2 Hinv)
          as (t' & -> & _ & Hprev & Hex & Hnext & Hdel & _).
        cbn [fst snd]. rewrite Hex, Hnext, Hdel, Hprev.
        destruct Hmono as (Htime & Hstep & Hrun).
        pose proof (invoke_payload_clock clock t (snd (time w1))
                      (conj Htime (conj Hstep Hrun))) as Hpay.
        rewrite Hinv in Hpay. cbn [snd] in Hpay.
        rewrite !Htime. pose proof (Hstep w1). pose proof (Hstep w2).
        destruct Ht as (_ & Hd & _).
        split; [lra|]. split; [exact Hd|]. intros p0 [= <-]. lra.
      - rewrite (iteration_raises t w1 e w2 Hinv). exact Ht. }
    destruct p; cbn [advance]; try exact Ht.
    + unfold execute. destruct (Qgt_bool (delay t) 0).
      * specialize (Hit w0).
        now destruct (iteration time run t w0) as [[[u|e] t'] w'].
      * rewrite TaskManagerSpec.one_shot_unfold. exact Ht.
    + specialize (Hit w0).
      now destruct (iteration time run t w0) as [[[u|e] t'] w'].
  - intros o t Ht. cbn in Ht. now rewrite lookup_empty in Ht.
Qed.

(** ** What [count] counts *)




Lemma owners_insert (s s' : state W) h a p c :
  loops s !! h = Some a ->
  loops s' = <[h := mkAio (coro_self a) p c]> (loops s) ->
  owners s' = owners s.
Proof.
  intros Ha Hl. unfold owners. rewrite Hl, list_fmap_insert. cbn.
  apply list_insert_id. now rewrite list_lookup_fmap, Ha.
Qed.











(** ** Cancellation, the registry and [done] *)

(** X9. Once every loop of a Task is cancelled or finished, the event loop
    never changes the Task again: its statistics stay as they are, however
    the loops are resumed. *)
Theorem cancelled_task_is_frozen (hs : list handle) :
  forall (s : state W) (o : oid),
  (forall h a, loops s !! h = Some a -> coro_self a = o -> dead h s) ->
  heap (run_ops time run (Resume <$> hs) s) !! o = heap s !! o.
Proof.
  induction hs as [|h hs IH]; intros s o Hdead; [reflexivity|].
  rewrite fmap_cons, TaskManagerSpec.run_ops_cons. cbn [apply_op].
  rewrite IH.
  - unfold resume. destruct (loops s !! h) as [a|] eqn:Ha; [|reflexivity].
    destruct (done_pc (pc a)) eqn:Hd; [reflexivity|].
    destruct (must_cancel a) eqn:Hc; [reflexivity|].
    destruct (heap s !! coro_self a) as [t|]; [|reflexivity].
    destruct (advance time run (pc a) t (world s)) as [[p' t'] w'].
    cbn [heap]. apply lookup_insert_ne. intros Heq.
    destruct (Hdead h a Ha Heq) as (a' & Ha' & Hdd).
    assert (a' = a) as -> by congruence. now rewrite Hd, Hc in Hdd.
  - intros h' a' Ha' Hown.
    assert (Ha0 : exists a0, loops s !! h' = Some a0 /\ coro_self a0 = o).
    { revert Ha'. unfold resume.
      destruct (loops s !! h) as [a|] eqn:Ha; [|eauto].
      destruct (done_pc (pc a)); [eauto|].
      assert (Hins : forall p c,
        <[h := mkAio (coro_self a) p c]> (loops s) !! h' = Some a' ->
        exists a0, loops s !! h' = Some a0 /\ coro_self a0 = o).
      { intros p c Hl. destruct (decide (h = h')) as [<-|Hne].
        - rewrite list_lookup_insert_eq in Hl by (eapply lookup_lt_Some; eauto).
          injection Hl as <-. cbn in Hown. eauto.
        - rewrite list_lookup_insert_ne in Hl by exact Hne. eauto. }
      destruct (must_cancel a); [apply Hins|].
      destruct (heap s !! coro_self a) as [t|]; [|eauto].
      destruct (advance time run (pc a) t (world s)) as [[p' t'] w'].
      apply Hins. }
    destruct Ha0 as (a0 & Ha0 & Hown0).
    apply TaskManagerSpec.resume_keeps_dead. eauto.
Qed.

(** X10. [stopAllTasks] itself runs no payload and changes no Task: the
    heap, the world and the record of runs are the same after the call as
    before, whether it returns or raises, and no loop changes owner. *)
Theorem stopAllTasks_changes_no_task (s : state W) :
  let s' := snd (stopAllTasks s) in
  heap s' = heap s /\ world s' = world s /\ trace s' = trace s /\
  owners s' = owners s.
Proof.
  cbv zeta.
  assert (Hown : forall l (s0 : state W),
            owners (snd (cancel_each l s0)) = owners s0).
  { induction l as [|o l IH]; intros s0; cbn; [reflexivity|].
    destruct (heap s0 !! o) as [t|]; [|reflexivity].
    destruct (aio_task t) as [h|]; [|reflexivity].
    rewrite IH. unfold cancel. destruct (loops s0 !! h) as [a|] eqn:Ha;
      [|reflexivity].
    destruct (done_pc (pc a)); [reflexivity|]. cbn [snd].
    now apply (owners_insert s0 _ h a (pc a) true Ha). }
  specialize (Hown (tasks s) s).
  destruct (TaskManagerSpec.cancel_each_frame (tasks s) s)
    as (Hh & _ & _ & Hw & Htr & _).
  unfold stopAllTasks.
  destruct (cancel_each (tasks s) s) as [[u|e] s']; cbn in *; auto.
Qed.

Lemma shadowed_grows cls (s : state W) (o : op) :
  cls ∈ shadowed s -> cls ∈ shadowed (apply_op time run s o).
Proof.
  intros Hin. destruct o; cbn [apply_op]; try exact Hin.
  - unfold start. now destruct (heap s !! self).
  - unfold stop. destruct (heap s !! self) as [t|]; [|exact Hin].
    destruct (_task t) as [h|]; [|exact Hin]. cbn [snd].
    now destruct (TaskManagerSpec.cancel_frame h s) as (_ & _ & -> & _).
  - destruct (TaskManagerSpec.cancel_each_frame (tasks s) s)
      as (_ & _ & Hsh & _).
    unfold stopAllTasks.
    destruct (cancel_each (tasks s) s) as [[u|e] s']; cbn in *; now rewrite Hsh.
  - destruct cls0; cbn; try exact Hin; apply elem_of_cons; now right.
  - unfold resume. destruct (loops s !! h) as [a|]; [|exact Hin].
    destruct (done_pc (pc a)); [exact Hin|].
    destruct (must_cancel a); [exact Hin|].
    destruct (heap s !! coro_self a) as [t|]; [|exact Hin].
    now destruct (advance time run (pc a) t (world s)) as [[p' t'] w'].
Qed.

(** X11. [clean_tasklist] called on a subclass, such as
    [OneShotTask.clean_tasklist()], does not clear the registry: [Task.tasks]
    and [Task.number_of_tasks()] are unchanged.  It gives the subclass a
    list of its own, which nothing fills: from then on [number_of_tasks()]
    on that subclass is [0], whatever Tasks are started. *)
Theorem clean_tasklist_on_subclass cls (s : state W) :
  cls <> KTask ->
  tasks (clean_tasklist cls s) = tasks s /\
  number_of_tasks KTask (clean_tasklist cls s) = number_of_tasks KTask s /\
  forall ops,
    number_of_tasks cls (run_ops time run ops (clean_tasklist cls s)) = 0.
Proof.
  intros Hne.
  assert (Hcl : clean_tasklist cls s = set_shadowed (cls :: shadowed s) s)
    by (destruct cls; [congruence|reflexivity..]).
  rewrite Hcl. split; [reflexivity|]. split.
  - unfold number_of_tasks. cbn [shadowed tasks set_shadowed].
    destruct (bool_decide (KTask ∈ shadowed s)) eqn:Hin.
    + rewrite bool_decide_eq_true_2; [reflexivity|].
      apply elem_of_cons. right. now apply bool_decide_eq_true in Hin.
    + rewrite bool_decide_eq_false_2; [reflexivity|].
      apply bool_decide_eq_false in Hin. intros Hc.
      apply elem_of_cons in Hc as [Hc|Hc]; congruence.
  - intros ops.
    assert (Hin : cls ∈ shadowed (set_shadowed (cls :: shadowed s) s))
      by (apply elem_of_cons; now left).
    revert Hin. generalize (set_shadowed (cls :: shadowed s) s).
    induction ops as [|o ops IH]; intros s0 Hin.
    + unfold number_of_tasks. cbn. now rewrite bool_decide_eq_true_2.
    + rewrite TaskManagerSpec.run_ops_cons. apply IH.
      now apply shadowed_grows.
Qed.

(** X12. A one-shot Task is not done when it has just been started, and is
    done as soon as its coroutine has been resumed once, whether the payload
    returned or raised. *)
Theorem one_shot_done_after_first_resumption (s : state W) self t :
  heap s !! self = Some t -> (delay t == 0)%Q ->
  done self (start self s) = false /\
  done self (resume time run (length (loops s)) (start self s)) = true.
Proof.
  intros Ht Hz.
  set (t1 := set_aio_task (Some (length (loops s))) t).
  assert (Hstart : start self s
    = mkState (<[self := t1]> (heap s)) (tasks s ++ [self]) (shadowed s)
        (loops s ++ [mkAio self Created false]) (world s) (trace s))
    by (unfold start; now rewrite Ht).
  assert (Hl : loops (start self s) !! length (loops s)
               = Some (mkAio self Created false)).
  { rewrite Hstart. cbn [loops]. rewrite lookup_app_r by lia.
    now rewrite Nat.sub_diag. }
  assert (Hh : heap (start self s) !! self = Some t1)
    by (rewrite Hstart; apply lookup_insert_eq).
  split.
  - unfold done. rewrite Hh. cbn [aio_task t1 set_aio_task]. now rewrite Hl.
  - unfold done, resume. rewrite Hl. cbn [pc done_pc must_cancel coro_self].
    rewrite Hh. cbn [advance]. unfold execute.
    assert (Hgt : Qgt_bool (delay t1) 0 = false).
    { apply TaskManagerSpec.Qgt_bool_false. cbn. rewrite Hz. apply Qle_refl. }
    rewrite Hgt, TaskManagerSpec.one_shot_unfold. cbn [heap loops].
    rewrite lookup_insert_eq. cbn [aio_task t1 set_aio_task].
    rewrite list_lookup_insert_eq by (eapply lookup_lt_Some; eauto).
    cbn. now destruct (fst (invoke_payload run t1 (world (start self s)))).
Qed.

(** X13. [__eq__] goes by id.  Two Tasks of a history compare equal
    exactly when they are one object, and a Task compares equal to a bare
    id exactly when it is the Task with that id. *)
Theorem eq_is_identity ops (w : W) (o1 o2 : oid) (t1 t2 : Task) :
  let s := run_ops time run ops (initial w) in
  heap s !! o1 = Some t1 -> heap s !! o2 = Some t2 ->
  (eq_task t1 t2 = true <-> o1 = o2) /\
  (eq_id t1 o2 = true <-> o1 = o2) /\
  (eq_task t1 t2 = true -> t1 = t2).
Proof.
  intros s H1 H2.
  assert (Hinv : inv s)
    by apply TaskManagerSpec.inv_run_ops, TaskManagerSpec.inv_initial.
  destruct (inv_heap s Hinv _ _ H1) as [Hid1 _].
  destruct (inv_heap s Hinv _ _ H2) as [Hid2 _].
  unfold eq_task, eq_id. rewrite !bool_decide_eq_true, Hid1, Hid2.
  split; [tauto|]. split; [tauto|]. intros ->. congruence.
Qed.

End Histories.

Lemma delay_zero_or_floor_witness :
  let t := set_aio_task (Some 0) (Task_init 1 KTask (FnCallable "f") None (-3) 100 0) in
  heap (run_ops tick quiet
          [New KTask (FnCallable "f") None (-3) 100 0; Start 1] (initial 0))
    !! 1%positive = Some t /\
  (delay t = 0%Q \/ (5 <= delay t)%Q).
Proof.
  cbv zeta. split; [reflexivity|].
  apply (delay_zero_or_floor tick quiet
           [New KTask (FnCallable "f") None (-3) 100 0; Start 1] 0 1%positive).
  reflexivity.
Defined.

Lemma failed_pass_ends_loop_witness :
  let s := run_ops tick failing
             [New KTask (FnCallable "f") None 10 100 0; Start 1] (initial 0) in
  loops (resume tick failing 0 s) !! 0
    = Some (mkAio 1 (Raised NoResponseFromController) false) /\
  done 1 (resume tick failing 0 s) = true /\
  runs_of 0 (trace (run_ops tick failing [Resume 0; Resume 0]
                      (resume tick failing 0 s))) = 1.
Proof.
  cbv zeta.
  pose proof (failed_pass_ends_loop tick failing
    (run_ops tick failing
       [New KTask (FnCallable "f") None 10 100 0; Start 1] (initial 0))
    0 1%positive Created
    (set_aio_task (Some 0) (Task_init 1 KTask (FnCallable "f") None 10 100 0))
    NoResponseFromController 1
    eq_refl eq_refl eq_refl eq_refl eq_refl) as H.
  cbv zeta in H. destruct H as (Hloop & _ & Hdone & Hruns).
  split; [exact Hloop|]. split; [exact (Hdone eq_refl)|].
  rewrite Hruns. reflexivity.
Defined.


Lemma tick_monotonic :
  monotonic tick quiet (fun w => inject_Z (Z.of_nat w)).
Proof.
  split; [reflexivity|]. split.
  - intros w. cbn. rewrite <- Zle_Qle. lia.
  - intros c w. apply Qle_refl.
Defined.

Lemma timing_consistent_witness :
  exists t,
    heap (run_ops tick quiet
            [New KTask (FnCallable "f") None 10 100 0; Start 1;
             Resume 0; Resume 0] (initial 0)) !! 1%positive = Some t /\
    previous_execution t = Some 3%Q /\
    (3 <= next_execution t)%Q /\
    (0 <= execution_time t)%Q.
Proof.
  eexists. split; [vm_compute; reflexivity|].
  split; [reflexivity|].
  pose proof (timing_consistent tick quiet (fun w => inject_Z (Z.of_nat w))
    [New KTask (FnCallable "f") None 10 100 0; Start 1; Resume 0; Resume 0]
    0 1%positive _ tick_monotonic ltac:(vm_compute; reflexivity)) as [Hex Hnext].
  split; [apply Hnext; reflexivity | exact Hex].
Defined.


Lemma cancelled_task_is_frozen_witness :
  let s := snd (stopAllTasks
                  (run_ops tick quiet
                     [New KTask (FnCallable "f") None 10 100 0; Start 1;
                      Resume 0] (initial 0))) in
  heap (run_ops tick quiet (Resume <$> [0; 0; 0]) s) !! 1%positive
  = heap s !! 1%positive.
Proof.
  cbv zeta. apply (cancelled_task_is_frozen tick quiet).
  intros h a Ha _. destruct h as [|h]; [|vm_compute in Ha; discriminate].
  vm_compute in Ha. injection Ha as <-.
  eexists. split; [vm_compute; reflexivity|reflexivity].
Defined.

Lemma clean_tasklist_on_subclass_witness :
  let s := run_ops tick quiet
             [New KOneShotTask FnNone None 0 100 0; Start 1] (initial 0) in
  number_of_tasks KTask (clean_tasklist KOneShotTask s) = 1 /\
  number_of_tasks KOneShotTask
    (run_ops tick quiet [Start 1] (clean_tasklist KOneShotTask s)) = 0 /\
  number_of_tasks KTask
    (run_ops tick quiet [Start 1] (clean_tasklist KOneShotTask s)) = 2.
Proof.
  cbv zeta.
  pose proof (clean_tasklist_on_subclass tick quiet KOneShotTask
    (run_ops tick quiet
       [New KOneShotTask FnNone None 0 100 0; Start 1] (initial 0))
    ltac:(discriminate)) as (_ & Hnum & Hzero).
  split; [rewrite Hnum; reflexivity|]. split; [apply Hzero | reflexivity].
Defined.

Lemma one_shot_done_after_first_resumption_witness :
  let s := run_ops tick failing
             [New KTask (FnCallable "f") None 0 100 0] (initial 0) in
  done 1 (start 1 s) = false /\
  done 1 (resume tick failing 0 (start 1 s)) = true.
Proof.
  cbv zeta.
  exact (one_shot_done_after_first_resumption tick failing
    (run_ops tick failing [New KTask (FnCallable "f") None 0 100 0] (initial 0))
    1%positive (Task_init 1 KTask (FnCallable "f") None 0 100 0)
    eq_refl eq_refl).
Defined.

Lemma eq_is_identity_witness :
  (eq_task (Task_init 1 KTask (FnCallable "f") None 10 100 0)
           (Task_init 2 KTask (FnCallable "f") None 10 100 0) = true
   <-> 1%positive = 2%positive) /\
  eq_id (Task_init 1 KTask (FnCallable "f") None 10 100 0) 1 = true.
Proof.
  pose proof (eq_is_identity tick quiet
    [New KTask (FnCallable "f") None 10 100 0;
     New KTask (FnCallable "f") None 10 100 0] 0 1%positive 2%positive
    (Task_init 1 KTask (FnCallable "f") None 10 100 0)
    (Task_init 2 KTask (FnCallable "f") None 10 100 0)
    eq_refl eq_refl) as (Heq & _).
  split; [exact Heq | reflexivity].
Defined.

End TaskManagerExtra.

(** * Further properties of the network object *)

Module LiteExtra.
Import Lite.

(** ** The registries *)

Section Registries.

Context {W : Type}.

(** X14. [register_device] puts the device in the registry, behind those
    already there; registering a device twice is the same as registering it
    once; and a registry without repetition stays so. *)
Theorem register_device_registers (dev : oid) (s : network W) :
  dev ∈ registered_devices (register_device dev s) /\
  registered_devices s `prefix_of` registered_devices (register_device dev s) /\
  register_device dev (register_device dev s) = register_device dev s /\
  (NoDup (registered_devices s) ->
   NoDup (registered_devices (register_device dev s))).
Proof.
  assert (Hin : dev ∈ registered_devices (register_device dev s)).
  { unfold register_device, registered_devices.
    destruct (bool_decide (dev ∈ _registered_devices s)) eqn:Hd.
    - now apply bool_decide_eq_true in Hd.
    - cbn. apply elem_of_app. right. apply list_elem_of_here. }
  split; [exact Hin|]. split; [|split].
  - unfold register_device, registered_devices.
    destruct (bool_decide (dev ∈ _registered_devices s)); [reflexivity|].
    cbn. now apply prefix_app_r.
  - unfold register_device at 1. unfold registered_devices in Hin.
    now rewrite bool_decide_eq_true_2.
  - apply LiteSpec.register_device_NoDup.
Qed.

(** X15. [unregister_device] never raises: on a device that is not
    registered it leaves the registry as it is.  Afterwards the device is
    not registered, the other devices are, in the order they had, and
    unregistering a device that was just registered for the first time
    gives back the registry from before. *)
Theorem unregister_device_removes (dev : oid) (s : network W) :
  (dev ∉ registered_devices (unregister_device dev s)) /\
  registered_devices (unregister_device dev s)
    `sublist_of` registered_devices s /\
  (forall o, o <> dev ->
     (o ∈ registered_devices (unregister_device dev s)
      <-> o ∈ registered_devices s)) /\
  (dev ∉ registered_devices s ->
   registered_devices (unregister_device dev s) = registered_devices s /\
   registered_devices (unregister_device dev (register_device dev s))
   = registered_devices s).
Proof.
  unfold unregister_device, registered_devices. cbn [_registered_devices].
  assert (Hid : forall l : list oid,
            dev ∉ l -> filter (fun o => o ≠ dev) l = l).
  { induction l as [|x l IH]; intros Hn; [reflexivity|].
    rewrite filter_cons. apply not_elem_of_cons in Hn as [Hx Hl].
    destruct (decide (x ≠ dev)) as [_|Hn']; [|destruct Hn'; congruence].
    now rewrite IH. }
  split; [|split; [|split]].
  - intros Hin. apply list_elem_of_filter in Hin as [Hne _]. congruence.
  - apply sublist_filter.
  - intros o Hne. rewrite list_elem_of_filter. tauto.
  - intros Hn. split; [now apply Hid|].
    unfold register_device. rewrite bool_decide_eq_false_2 by exact Hn.
    cbn [_registered_devices]. rewrite filter_app, (Hid _ Hn), filter_cons.
    destruct (decide (dev ≠ dev)); [congruence|].
    now rewrite filter_nil, app_nil_r.
Qed.

End Registries.

Lemma register_device_registers_witness :
  registered_devices (register_device 3 example_network)
    = [1%positive; 2%positive; 3%positive] /\
  NoDup (registered_devices (register_device 3 example_network)).
Proof.
  split; [reflexivity|].
  apply (register_device_registers 3%positive example_network).
  apply NoDup_cons. split; [|apply NoDup_singleton].
  intros Hin. apply list_elem_of_singleton in Hin. discriminate.
Defined.

Lemma unregister_device_removes_witness :
  registered_devices (unregister_device 3 example_network)
    = [1%positive; 2%positive] /\
  registered_devices
    (unregister_device 3 (register_device 3 example_network))
    = [1%positive; 2%positive].
Proof.
  destruct (unregister_device_removes 3%positive example_network)
    as (_ & _ & _ & H).
  apply H. intros Hin.
  apply elem_of_cons in Hin as [Hin|Hin]; [discriminate|].
  apply list_elem_of_singleton in Hin. discriminate.
Defined.

(** X16. [add_trend] and [remove_trend] raise [TypeError] on an object
    that is not a Point, a TrendLog or a VirtualPoint, and then leave the
    registry of trends as it is.  On such an object, the point is among the
    [trends] after [add_trend], is not after [remove_trend], removing a
    point that is not trended changes nothing, and adding then removing it
    gives back the registry from before. *)
Theorem add_trend_remove_trend (class_of : oid -> history_class) (p : oid)
    (reg : list oid) :
  (holds_history (class_of p) = false ->
   add_trend class_of p reg = (Raise TypeError, reg) /\
   remove_trend class_of p reg = (Raise TypeError, reg)) /\
  (holds_history (class_of p) = true ->
   fst (add_trend class_of p reg) = Ret () /\
   p ∈ trends (snd (add_trend class_of p reg)) /\
   (p ∉ trends (snd (remove_trend class_of p reg))) /\
   (p ∉ reg ->
    remove_trend class_of p reg = (Ret (), reg) /\
    remove_trend class_of p (snd (add_trend class_of p reg)) = (Ret (), reg))).
Proof.
  assert (Hid : forall l : list oid, p ∉ l -> filter (fun o => o ≠ p) l = l).
  { induction l as [|x l IH]; intros Hn; [reflexivity|].
    rewrite filter_cons. apply not_elem_of_cons in Hn as [Hx Hl].
    destruct (decide (x ≠ p)) as [_|Hn']; [|destruct Hn'; congruence].
    now rewrite IH. }
  unfold add_trend, remove_trend, trends. split; intros ->.
  - now split.
  - cbn [fst snd]. split; [reflexivity|]. split; [|split].
    + destruct (bool_decide (p ∈ reg)) eqn:Hd.
      * now apply bool_decide_eq_true in Hd.
      * apply elem_of_app. right. apply list_elem_of_here.
    + intros Hin. apply list_elem_of_filter in Hin as [Hne _]. congruence.
    + intros Hn. rewrite (Hid _ Hn). split; [reflexivity|].
      rewrite bool_decide_eq_false_2 by exact Hn.
      rewrite filter_app, (Hid _ Hn), filter_cons.
      destruct (decide (p ≠ p)); [congruence|].
      now rewrite filter_nil, app_nil_r.
Qed.

Lemma add_trend_remove_trend_witness :
  add_trend (fun o => if decide (o = 1%positive) then Point
                      else OtherObject "Device") 2 [1%positive]
    = (Raise TypeError, [1%positive]) /\
  remove_trend (fun o => if decide (o = 1%positive) then Point
                         else OtherObject "Device") 1 [1%positive]
    = (Ret (), []).
Proof.
  destruct (add_trend_remove_trend
              (fun o => if decide (o = 1%positive) then Point
                        else OtherObject "Device") 2%positive [1%positive])
    as [Hbad _].
  split; [apply Hbad; reflexivity | reflexivity].
Defined.

(** ** The local address *)

Lemma split_on_absent sep (s : string) :
  occurs sep s = false -> split_on sep s = [s].
Proof.
  induction s as [|c s IH]; cbn; [reflexivity|].
  intros H. apply orb_false_iff in H as [Hc Hs].
  rewrite Hc, (IH Hs). reflexivity.
Qed.

Lemma split_on_once sep (a b : string) :
  occurs sep a = false -> occurs sep b = false ->
  split_on sep (a +:+ String sep b) = [a; b].
Proof.
  intros Ha Hb. induction a as [|c a IH].
  - change ("" +:+ String sep b) with (String sep b). cbn [split_on].
    rewrite bool_decide_eq_true_2 by reflexivity.
    now rewrite (split_on_absent sep b Hb).
  - change (String c a +:+ String sep b) with (String c (a +:+ String sep b)).
    cbn [split_on]. cbn in Ha. apply orb_false_iff in Ha as [Hc Ha].
    rewrite Hc, (IH Ha). reflexivity.
Qed.

Lemma occurs_app sep (a b : string) :
  occurs sep a = false -> occurs sep b = false ->
  occurs sep (a +:+ b) = false.
Proof.
  intros Ha Hb. induction a as [|c a IH]; [exact Hb|].
  change (String c a +:+ b) with (String c (a +:+ b)). cbn in *.
  apply orb_false_iff in Ha as [Hc Ha]. rewrite Hc. now apply IH.
Qed.

Section LocalAddress.

Variable int : string -> option Z.
Variable host_address : option Z -> string.

Lemma int_of_ValueError s e : int_of int s = Raise e -> e = ValueError.
Proof. unfold int_of. destruct (int s); congruence. Qed.

Lemma unpack2_ValueError {A} (l : list A) e :
  unpack2 l = Raise e -> e = ValueError.
Proof. destruct l as [|a [|b [|c l]]]; cbn; congruence. Qed.

Lemma ip_and_rest_ValueError l e l' :
  ip_and_rest int l = (Raise e, l') -> e = ValueError.
Proof.
  unfold ip_and_rest.
  destruct (unpack2 (split_on "/" (l_ip l))) as [[ip rest]|e0] eqn:Hu.
  - unfold try_ValueError, mask_and_port, mask_only.
    destruct (unpack2 (split_on ":" rest)) as [[ms ps]|e1] eqn:Hu1.
    + destruct (int_of int ms) as [m|e2] eqn:Hm.
      * destruct (int_of int ps) as [p|e3] eqn:Hp; [congruence|].
        rewrite (int_of_ValueError _ _ Hp), bool_decide_eq_true_2 by reflexivity.
        destruct (int_of int rest) as [m'|e4] eqn:Hr; [congruence|].
        intros [= <- _]. eapply int_of_ValueError; eauto.
      * rewrite (int_of_ValueError _ _ Hm), bool_decide_eq_true_2 by reflexivity.
        destruct (int_of int rest) as [m'|e4] eqn:Hr; [congruence|].
        intros [= <- _]. eapply int_of_ValueError; eauto.
    + rewrite (unpack2_ValueError _ _ Hu1), bool_decide_eq_true_2 by reflexivity.
      destruct (int_of int rest) as [m'|e4] eqn:Hr; [congruence|].
      intros [= <- _]. eapply int_of_ValueError; eauto.
  - intros [= <- _]. eapply unpack2_ValueError; eauto.
Qed.

(** X17. Whatever the [ip] string and the [mask] and [port] parameters,
    the code from the [ip] string to the call of [Address] does not raise,
    and the string it gives to [Address] reads [ip/mask:port] with a mask
    and a port that are not [0]: an absent or zero mask has become [24], an
    absent or zero port [47808]. *)
Theorem local_address_well_formed (ip : string) (port mask : option Z) :
  exists ip' m p,
    local_address int host_address (Some ip) port mask
    = Ret (ip' +:+ "/" +:+ pretty m +:+ ":" +:+ pretty p) /\
    m <> 0%Z /\ p <> 0%Z.
Proof.
  unfold local_address, parse_ip, try_ValueError.
  destruct (ip_and_rest int (mkLocals ip mask port)) as [[u|e] l] eqn:Hp.
  - exists (l_ip l). eexists _, _. split; [reflexivity|].
    split.
    + unfold falsy. destruct (l_mask l) as [z|]; [|discriminate].
      cbn. destruct (bool_decide (z = 0%Z)) eqn:Hz; [discriminate|].
      now apply bool_decide_eq_false in Hz.
    + unfold falsy. destruct (l_port l) as [z|]; [|discriminate].
      cbn. destruct (bool_decide (z = 0%Z)) eqn:Hz; [discriminate|].
      now apply bool_decide_eq_false in Hz.
  - rewrite (ip_and_rest_ValueError _ _ _ Hp), bool_decide_eq_true_2
      by reflexivity.
    exists (l_ip l). eexists _, _. split; [reflexivity|].
    split.
    + unfold falsy. destruct (l_mask l) as [z|]; [|discriminate].
      cbn. destruct (bool_decide (z = 0%Z)) eqn:Hz; [discriminate|].
      now apply bool_decide_eq_false in Hz.
    + unfold falsy. destruct (l_port l) as [z|]; [|discriminate].
      cbn. destruct (bool_decide (z = 0%Z)) eqn:Hz; [discriminate|].
      now apply bool_decide_eq_false in Hz.
Qed.

(** X18. How the [ip] string is read.  Without a ["/"] it is the address,
    and the [mask] and [port] parameters apply.  As [a/m] it gives the
    address [a] and the mask [int(m)], with the [port] parameter.  As
    [a/m:p] it gives address, mask and port, and the [mask] and [port]
    parameters are not used. *)
Theorem local_address_forms (a ms ps : string) (port mask : option Z) (M P : Z) :
  occurs "/" a = false -> occurs "/" ms = false -> occurs "/" ps = false ->
  occurs ":" ms = false -> occurs ":" ps = false ->
  int ms = Some M -> int ps = Some P ->
  local_address int host_address (Some a) port mask
    = Ret (format_address (mkLocals a mask port)) /\
  local_address int host_address (Some (a +:+ "/" +:+ ms)) port mask
    = Ret (format_address (mkLocals a (Some M) port)) /\
  local_address int host_address (Some (a +:+ "/" +:+ ms +:+ ":" +:+ ps))
    port mask
    = Ret (format_address (mkLocals a (Some M) (Some P))).
Proof.
  intros Ha Hms Hps Hcm Hcp HM HP.
  unfold local_address, parse_ip, try_ValueError, ip_and_rest.
  cbn [l_ip l_mask l_port]. split; [|split].
  - rewrite (split_on_absent "/" a Ha). cbn.
    now rewrite bool_decide_eq_true_2.
  - change ("/" +:+ ms) with (String "/" ms).
    rewrite (split_on_once "/" a ms Ha Hms). cbn [unpack2].
    unfold try_ValueError, mask_and_port, mask_only.
    rewrite (split_on_absent ":" ms Hcm). cbn [unpack2].
    rewrite bool_decide_eq_true_2 by reflexivity.
    unfold int_of. now rewrite HM.
  - change ("/" +:+ ms +:+ ":" +:+ ps) with (String "/" (ms +:+ String ":" ps)).
    rewrite (split_on_once "/" a (ms +:+ String ":" ps) Ha).
    + cbn [unpack2]. unfold try_ValueError, mask_and_port.
      rewrite (split_on_once ":" ms ps Hcm Hcp). cbn [unpack2].
      unfold int_of. now rewrite HM, HP.
    + apply occurs_app; [exact Hms|]. cbn. now rewrite Hps.
Qed.

(** X19. An [ip] string [a/m:p] whose port does not read as an integer:
    the mask [int(m)] has been assigned before [int(p)] raises and is kept,
    the port is the [port] parameter, and nothing is raised.  When the mask
    does not read as an integer either, everything after the ["/"] is
    dropped and both parameters apply. *)
Theorem local_address_unreadable_port (a ms ps : string) (port mask : option Z) :
  occurs "/" a = false -> occurs "/" ms = false -> occurs "/" ps = false ->
  occurs ":" ms = false -> occurs ":" ps = false ->
  int ps = None -> int (ms +:+ ":" +:+ ps) = None ->
  local_address int host_address (Some (a +:+ "/" +:+ ms +:+ ":" +:+ ps))
    port mask
  = Ret (format_address
           (mkLocals a (match int ms with Some M => Some M | None => mask end)
              port)).
Proof.
  intros Ha Hms Hps Hcm Hcp HP Hrest.
  unfold local_address, parse_ip, try_ValueError, ip_and_rest.
  cbn [l_ip l_mask l_port].
  change ("/" +:+ ms +:+ ":" +:+ ps) with (String "/" (ms +:+ String ":" ps)).
  change (":" +:+ ps) with (String ":" ps) in Hrest.
  rewrite (split_on_once "/" a (ms +:+ String ":" ps) Ha).
  - cbn [unpack2]. unfold try_ValueError, mask_and_port, mask_only.
    rewrite (split_on_once ":" ms ps Hcm Hcp). cbn [unpack2].
    unfold int_of. rewrite HP, Hrest.
    destruct (int ms) as [M|]; cbn; now rewrite !bool_decide_eq_true_2.
  - apply occurs_app; [exact Hms|]. cbn. now rewrite Hps.
Qed.

End LocalAddress.

Lemma local_address_forms_witness :
  local_address example_int (fun _ => "host") (Some "10.0.0.5") None None
    = Ret "10.0.0.5/24:47808" /\
  local_address example_int (fun _ => "host") (Some "10.0.0.5/16") None None
    = Ret "10.0.0.5/16:47808" /\
  local_address example_int (fun _ => "host") (Some "10.0.0.5/16:47809")
    (Some 1%Z) (Some 8%Z)
    = Ret "10.0.0.5/16:47809".
Proof.
  pose proof (local_address_forms example_int (fun _ => "host")
    "10.0.0.5" "16" "47809" None None 16 47809
    eq_refl eq_refl eq_refl eq_refl eq_refl eq_refl eq_refl) as (H1 & H2 & _).
  pose proof (local_address_forms example_int (fun _ => "host")
    "10.0.0.5" "16" "47809" (Some 1%Z) (Some 8%Z) 16 47809
    eq_refl eq_refl eq_refl eq_refl eq_refl eq_refl eq_refl) as (_ & _ & H3).
  split; [exact H1|]. split; [exact H2 | exact H3].
Defined.

Lemma local_address_unreadable_port_witness :
  local_address example_int (fun _ => "host") (Some "10.0.0.5/16:bacnet")
    (Some 47809%Z) (Some 8%Z)
  = Ret "10.0.0.5/16:47809".
Proof.
  exact (local_address_unreadable_port example_int (fun _ => "host")
    "10.0.0.5" "16" "bacnet" (Some 47809%Z) (Some 8%Z)
    eq_refl eq_refl eq_refl eq_refl eq_refl eq_refl eq_refl).
Defined.

(** ** The [devices] property *)

Section Devices.

Context {W : Type}.
Variable readMultiple : string -> W -> outcome (list pyvalue) * W.
Variable read : string -> W -> outcome pyvalue * W.

Local Abbreviation devices_loop := (devices_loop readMultiple read).
Local Abbreviation names_of := (names_of readMultiple read).

(** Where an entry of the listing comes from. *)
Local Abbreviation origin :=
  (fun x : pyvalue * pyvalue * string * Z => (snd (fst x), snd x)).
Local Abbreviation key :=
  (fun d : discovered => (addr d, snd (objId d))).

Lemma devices_loop_sublist l :
  forall lst w r w',
  devices_loop l lst w = (Ret r, w') ->
  exists new, r = lst ++ new /\ origin <$> new `sublist_of` key <$> l.
Proof.
  induction l as [|d l IH]; intros lst w r w'; cbn [Lite.devices_loop].
  - intros [= <- _]. exists []. rewrite app_nil_r. split; [reflexivity|].
    apply sublist_nil.
  - destruct (names_of d w) as [[[[dn vn]|]|e] w1]; [| |discriminate].
    + intros H. destruct (IH _ _ _ _ H) as (new & -> & Hsub).
      exists ((dn, vn, addr d, snd (objId d)) :: new).
      rewrite <- app_assoc. split; [reflexivity|].
      rewrite !fmap_cons. now apply sublist_skip.
    + intros H. destruct (IH _ _ _ _ H) as (new & -> & Hsub).
      exists new. split; [reflexivity|].
      rewrite fmap_cons. now apply sublist_cons.
Qed.

Lemma names_of_returns d w :
  (forall q w0 e, fst (readMultiple q w0) = Raise e ->
     e = UnrecognizedService \/ e = ValueError \/
     e = NoResponseFromController \/ e = Timeout) ->
  (forall q w0 e, fst (read q w0) = Raise e -> e = NoResponseFromController) ->
  exists r, fst (names_of d w) = Ret r.
Proof.
  intros HrM Hr.
  assert (Hone : forall w0, exists r,
            fst (read_one_by_one read d w0) = Ret r).
  { intros w0. unfold read_one_by_one.
    destruct (read _ w0) as [[v|e] w1] eqn:H1.
    - destruct (read _ w1) as [[v'|e] w2] eqn:H2; [eauto|].
      assert (He : e = NoResponseFromController)
        by (eapply Hr; rewrite H2; reflexivity).
      rewrite He, bool_decide_eq_true_2 by reflexivity. eauto.
    - assert (He : e = NoResponseFromController)
        by (eapply Hr; rewrite H1; reflexivity).
      rewrite He, bool_decide_eq_true_2 by reflexivity. eauto. }
  unfold Lite.names_of.
  destruct (readMultiple _ w) as [[vs|e] w1] eqn:HM.
  - destruct vs as [|a [|b [|c vs]]]; try apply Hone. eauto.
  - assert (He : e = UnrecognizedService \/ e = ValueError \/
                 e = NoResponseFromController \/ e = Timeout)
      by (eapply HrM; rewrite HM; reflexivity).
    destruct He as [He|[He|[He|He]]]; subst e;
      repeat (first [rewrite bool_decide_eq_true_2 by reflexivity
                    | rewrite bool_decide_eq_false_2 by discriminate]);
      cbn [orb]; try apply Hone; eauto.
Qed.

(** X20. When [readMultiple] fails only for want of the service, of a
    well-formed answer or of a response, and [read] only for want of a
    response, [devices] does not raise.  Its list holds at most one entry per
    discovered device, with the address and the instance of that device, in
    the order of discovery; it is empty when nothing has been discovered
    ([discoveredDevices] is [None] or empty). *)
Theorem devices_lists_those_that_answer
    (discoveredDevices : option (list discovered)) (w : W) :
  (forall q w0 e, fst (readMultiple q w0) = Raise e ->
     e = UnrecognizedService \/ e = ValueError \/
     e = NoResponseFromController \/ e = Timeout) ->
  (forall q w0 e, fst (read q w0) = Raise e -> e = NoResponseFromController) ->
  exists lst,
    fst (devices readMultiple read discoveredDevices w) = Ret lst /\
    origin <$> lst `sublist_of` key <$> default [] discoveredDevices /\
    (default [] discoveredDevices = [] -> lst = []).
Proof.
  intros HrM Hr. unfold devices.
  assert (Hret : forall l lst0 w0, exists r,
            fst (devices_loop l lst0 w0) = Ret r).
  { induction l as [|d l IH]; intros lst0 w0; cbn [Lite.devices_loop];
      [eauto|].
    destruct (names_of_returns d w0 HrM Hr) as (r & Hn).
    destruct (names_of d w0) as [[[[dn vn]|]|e] w1]; cbn in Hn;
      [apply IH | apply IH | discriminate]. }
  destruct (Hret (default [] discoveredDevices) [] w) as (r & Hr0).
  destruct (devices_loop (default [] discoveredDevices) [] w)
    as [r0 w'] eqn:Hloop.
  cbn in Hr0. subst r0.
  destruct (devices_loop_sublist _ _ _ _ _ Hloop) as (new & -> & Hsub).
  exists ([] ++ new). split; [reflexivity|]. split; [exact Hsub|].
  intros Hnil. rewrite Hnil in Hsub. cbn in Hsub.
  apply sublist_nil_r in Hsub. now apply fmap_nil_inv in Hsub as ->.
Qed.

(** X21. The fallback is guarded less than the first attempt.  When
    [readMultiple] is not recognised and the single read that replaces it
    times out, [devices] raises [Timeout]: the listing stops at this device,
    though a [Timeout] of [readMultiple] itself would only have skipped
    it. *)
Theorem devices_fallback_timeout_escapes (d : discovered)
    (rest : list discovered) (w w1 w2 : W) :
  let query := addr d +:+ " device " +:+ pretty (snd (objId d)) in
  (readMultiple (query +:+ " objectName vendorName") w
     = (Raise UnrecognizedService, w1) ->
   read (query +:+ " objectName") w1 = (Raise Timeout, w2) ->
   devices readMultiple read (Some (d :: rest)) w = (Raise Timeout, w2)) /\
  (readMultiple (query +:+ " objectName vendorName") w = (Raise Timeout, w1) ->
   devices readMultiple read (Some (d :: rest)) w
   = devices readMultiple read (Some rest) w1).
Proof.
  cbv zeta.
  assert (Hcons : devices readMultiple read (Some (d :: rest)) w
    = match names_of d w with
      | (Raise e, w) => (Raise e, w)
      | (Ret None, w) => devices_loop rest [] w
      | (Ret (Some (deviceName, vendorName)), w) =>
          devices_loop rest
            ([] ++ [(deviceName, vendorName, addr d, snd (objId d))]) w
      end) by reflexivity.
  rewrite Hcons. unfold Lite.names_of, read_one_by_one. cbv zeta.
  assert (Happ : forall x y z : string, (x +:+ y) +:+ z = x +:+ y +:+ z).
  { intros x y z. induction x as [|c x IH]; [reflexivity|].
    change (String c x +:+ y +:+ z) with (String c (x +:+ y +:+ z)).
    change ((String c x +:+ y) +:+ z) with (String c ((x +:+ y) +:+ z)).
    now rewrite IH. }
  rewrite !Happ. split.
  - intros HM HR. rewrite HM.
    rewrite bool_decide_eq_true_2 by reflexivity. cbn [orb].
    rewrite HR. now rewrite bool_decide_eq_false_2 by discriminate.
  - intros HM. rewrite HM.
    rewrite (bool_decide_eq_false_2 (Timeout = UnrecognizedService))
      by discriminate.
    rewrite (bool_decide_eq_false_2 (Timeout = ValueError)) by discriminate.
    rewrite (bool_decide_eq_false_2 (Timeout = NoResponseFromController))
      by discriminate.
    rewrite bool_decide_eq_true_2 by reflexivity. reflexivity.
Qed.

End Devices.

Lemma devices_lists_those_that_answer_witness :
  fst (devices
         (fun q (w : unit) =>
            if bool_decide (q = "2:5 device 5012 objectName vendorName")
            then (Ret [PyStr "AHU-1"; PyStr "Acme"], w)
            else (Raise NoResponseFromController, w))
         (fun q (w : unit) => (Raise NoResponseFromController, w))
         (Some [mkDiscovered ("device", 5013%Z) "2:6";
                mkDiscovered ("device", 5012%Z) "2:5"]) tt)
  = Ret [(PyStr "AHU-1", PyStr "Acme", "2:5", 5012%Z)].
Proof.
  destruct (devices_lists_those_that_answer
    (fun q (w : unit) =>
       if bool_decide (q = "2:5 device 5012 objectName vendorName")
       then (Ret [PyStr "AHU-1"; PyStr "Acme"], w)
       else (Raise NoResponseFromController, w))
    (fun q (w : unit) => (Raise NoResponseFromController, w))
    (Some [mkDiscovered ("device", 5013%Z) "2:6";
           mkDiscovered ("device", 5012%Z) "2:5"]) tt)
    as (lst & Hlst & _).
  - intros q w0 e. destruct (bool_decide _); cbn; [discriminate|].
    intros [= <-]. tauto.
  - intros q w0 e [= <-]. reflexivity.
  - reflexivity.
Defined.

Lemma devices_fallback_timeout_escapes_witness :
  devices
    (fun q (w : unit) => (Raise UnrecognizedService, w))
    (fun q (w : unit) => (Raise Timeout, w))
    (Some [mkDiscovered ("device", 5012%Z) "2:5";
           mkDiscovered ("device", 5013%Z) "2:6"]) tt
  = (Raise Timeout, tt).
Proof.
  destruct (devices_fallback_timeout_escapes
              (fun q (w : unit) => (Raise UnrecognizedService, w))
              (fun q (w : unit) => (Raise Timeout, w))
              (mkDiscovered ("device", 5012%Z) "2:5")
              [mkDiscovered ("device", 5013%Z) "2:6"] tt tt tt) as [H _].
  apply H; reflexivity.
Defined.

(** ** [disconnect] and [__getitem__] *)

Section Disconnect.

Context {W : Type}.
Variable device_disconnect :
  oid -> list oid * (oid -> device) * W
      -> outcome unit * (list oid * (oid -> device) * W).
Variable base_disconnect :
  list oid * (oid -> device) * W
  -> outcome unit * (list oid * (oid -> device) * W).

Lemma disconnect_each_calls l :
  (forall each st, fst (device_disconnect each st) = Ret ()) ->
  forall s : network W,
    fst (disconnect_each device_disconnect l s) = Ret () /\
    calls (snd (disconnect_each device_disconnect l s))
    = calls s ++ ((fun o => EDisconnect o true) <$> l).
Proof.
  intros Hret. induction l as [|each l IH]; intros s.
  - cbn. now rewrite app_nil_r.
  - cbn [disconnect_each]. unfold mbind, M_bind, bind, calling.
    pose proof (Hret each (_registered_devices s, objects s, world s)) as Hr.
    destruct (device_disconnect each _) as [r [[reg o] w]]. cbn in Hr.
    subst r. destruct (IH (mkNetwork reg o w (calls s ++ [EDisconnect each true])))
      as [Hfst Hcalls].
    split; [exact Hfst|]. rewrite Hcalls. cbn [calls].
    now rewrite fmap_cons, <- app_assoc.
Qed.

(** X22. [Lite.disconnect] goes by the list of devices registered when it
    starts.  When the devices' own [disconnect] return, each of those devices
    is disconnected exactly once, in order, even though the calls take the
    devices out of the registry meanwhile, and the base class is then asked
    to stop the stack.  When the first device's [disconnect] raises, the
    exception leaves [Lite.disconnect] at once: no other device is
    disconnected. *)
Theorem disconnect_goes_by_snapshot (s : network W) :
  ((forall each st, fst (device_disconnect each st) = Ret ()) ->
   calls (snd (disconnect device_disconnect base_disconnect s))
   = calls s ++ ((fun o => EDisconnect o true) <$> registered_devices s) /\
   exists st, fst (disconnect device_disconnect base_disconnect s)
              = fst (base_disconnect st)) /\
  (forall each rest e st,
     registered_devices s = each :: rest ->
     device_disconnect each (_registered_devices s, objects s, world s)
       = (Raise e, st) ->
     fst (disconnect device_disconnect base_disconnect s) = Raise e /\
     calls (snd (disconnect device_disconnect base_disconnect s))
     = calls s ++ [EDisconnect each true]).
Proof.
  split.
  - intros Hret. unfold disconnect, registered_devices, mbind, M_bind, bind.
    destruct (disconnect_each_calls (_registered_devices s) Hret s)
      as [Hfst Hcalls].
    destruct (disconnect_each device_disconnect (_registered_devices s) s)
      as [r s1]. cbn in Hfst, Hcalls. subst r. unfold unrecorded.
    destruct (base_disconnect (_registered_devices s1, objects s1, world s1))
      as [r [[reg o] w]] eqn:Hb. cbn. split; [exact Hcalls|].
    exists (_registered_devices s1, objects s1, world s1). now rewrite Hb.
  - intros each rest e st Hreg Hd.
    unfold disconnect, mbind, M_bind, bind. unfold registered_devices in Hreg.
    rewrite Hreg. cbn [disconnect_each]. unfold mbind, M_bind, bind, calling.
    rewrite Hd. destruct st as [[reg o] w]. now cbn.
Qed.

End Disconnect.

Lemma disconnect_goes_by_snapshot_witness :
  calls (snd (disconnect
                (fun each st =>
                   (Ret (), (filter (fun o => o ≠ each) (fst (fst st)),
                             snd (fst st), snd st)))
                (fun st => (Ret (), st)) example_network))
  = [EDisconnect 1 true; EDisconnect 2 true].
Proof.
  destruct (disconnect_goes_by_snapshot
    (fun each (st : list oid * (oid -> device) * unit) =>
       (Ret (), (filter (fun o => o ≠ each) (fst (fst st)),
                 snd (fst st), snd st)))
    (fun st => (Ret (), st)) example_network) as [H _].
  destruct H as [Hcalls _]; [reflexivity|]. exact Hcalls.
Defined.

(** X23. [__getitem__] on an identifier that the local application does not
    know: with no device registered it returns [None]; with any device
    registered it raises [AttributeError], because the loop runs over the
    keys of the registry, which are integers and have no [properties].  It
    never hands back a registered device, not even one whose [device_id] is
    the identifier asked for. *)
Theorem getitem_unknown_identifier {W} (objectName : string -> outcome (option string))
    (boid_or_localobject : string) (s : network W) :
  objectName boid_or_localobject = Ret None ->
  (registered_devices s = [] ->
   getitem objectName boid_or_localobject s = Ret None) /\
  (registered_devices s <> [] ->
   getitem objectName boid_or_localobject s = Raise AttributeError).
Proof.
  intros Hlocal. unfold getitem, registered_devices. rewrite Hlocal. split.
  - now intros ->.
  - destruct (_registered_devices s) as [|k l]; [congruence|]. reflexivity.
Qed.

Lemma getitem_unknown_identifier_witness :
  pretty (device_id (properties (objects example_network 1%positive))) = "5012" /\
  getitem (fun _ => Ret None) "5012" example_network = Raise AttributeError.
Proof.
  split; [reflexivity|].
  apply (getitem_unknown_identifier (fun _ => Ret None) "5012" example_network);
    [reflexivity | discriminate].
Defined.

(** ** More on the liveness sweep *)

Section Sweep.

Context {W : Type}.
Variable ping_op : oid -> (oid -> device) * W -> outcome unit * ((oid -> device) * W).
Variable disconnect_op :
  oid -> bool -> (oid -> device) * W -> outcome unit * ((oid -> device) * W).
Variable connect_op : oid -> (oid -> device) * W -> outcome unit * ((oid -> device) * W).
Variable poll_op : oid -> Z -> (oid -> device) * W -> outcome unit * ((oid -> device) * W).
Variable read_op : string -> (oid -> device) * W -> outcome pyvalue * ((oid -> device) * W).

Local Abbreviation check := (check ping_op disconnect_op connect_op poll_op read_op).
Local Abbreviation sweep := (sweep ping_op disconnect_op connect_op poll_op read_op).
Local Abbreviation ping_registered_devices :=
  (ping_registered_devices ping_op disconnect_op connect_op poll_op read_op).

Lemma check_ping_answered each (s1 : network W) o2 w2 :
  ping_capable (class_of (objects s1 each)) = true ->
  ping_op each (objects s1, world s1) = (Ret (), (o2, w2)) ->
  (ping_failures (properties (o2 each)) <= 3)%Z ->
  check each s1
  = (Ret (), mkNetwork (_registered_devices s1) o2 w2 (calls s1 ++ [EPing each])).
Proof.
  intros Hcap Hping Hle. apply Z.ltb_ge in Hle.
  unfold Lite.check, mbind, M_bind, bind, get, try_except, external, ret.
  rewrite Hcap, Hping. cbn. now rewrite Hle.
Qed.

Lemma check_name_differs each (s1 : network W) v o2 w2 :
  ping_capable (class_of (objects s1 each)) = false ->
  read_op (objectName_query (address (properties (objects s1 each)))
             (device_id (properties (objects s1 each))))
    (objects s1, world s1) = (Ret v, (o2, w2)) ->
  py_eq_str v (name (properties (o2 each))) = false ->
  check each s1
  = (Ret (),
     mkNetwork (_registered_devices s1) o2 w2
       (calls s1
        ++ [ERead (objectName_query (address (properties (objects s1 each)))
                     (device_id (properties (objects s1 each))))])).
Proof.
  intros Hcap Hread Hne.
  unfold Lite.check, mbind, M_bind, bind, get, external, ret.
  rewrite Hcap. cbn. rewrite Hread. cbn. now rewrite Hne.
Qed.

(** X24. A device that answers is left alone.  In a sweep that gets to a
    ping-capable device whose ping returns with at most 3 failures counted,
    the ping is the only call made on the device; in a sweep that gets to a
    device that is not ping-capable and whose name, as read, differs from
    the stored one, no call at all is made on the device.  In both cases the
    sweep goes on to the next device. *)
Theorem answering_device_is_left_alone pre each post (s s1 : network W) :
  registered_devices s = pre ++ each :: post ->
  NoDup (registered_devices s) ->
  sweep pre s = (Ret (), s1) ->
  let s' := snd (ping_registered_devices s) in
  (forall o2 w2,
     ping_capable (class_of (objects s1 each)) = true ->
     ping_op each (objects s1, world s1) = (Ret (), (o2, w2)) ->
     (ping_failures (properties (o2 each)) <= 3)%Z ->
     calls_on each (made_during s s') = [EPing each] /\
     ping_registered_devices s
     = sweep post (mkNetwork (_registered_devices s1) o2 w2
                     (calls s1 ++ [EPing each]))) /\
  (forall v o2 w2,
     ping_capable (class_of (objects s1 each)) = false ->
     read_op (objectName_query (address (properties (objects s1 each)))
                (device_id (properties (objects s1 each))))
       (objects s1, world s1) = (Ret v, (o2, w2)) ->
     py_eq_str v (name (properties (o2 each))) = false ->
     calls_on each (made_during s s') = [] /\
     ping_registered_devices s
     = sweep post
         (mkNetwork (_registered_devices s1) o2 w2
            (calls s1
             ++ [ERead (objectName_query
                          (address (properties (objects s1 each)))
                          (device_id (properties (objects s1 each))))]))).
Proof.
  intros Hreg Hnd Hpre s'.
  destruct (LiteSpec.registry_around pre each post s Hreg Hnd) as [Hn1 Hn3].
  destruct (LiteSpec.sweep_around ping_op disconnect_op connect_op poll_op
              read_op pre each post s s1 Hpre Hn1 Hn3)
    as (ev1 & ev3 & Hc1 & Hc3 & Ho1 & Ho3 & _).
  assert (Hrun : ping_registered_devices s
                 = match check each s1 with
                   | (Ret _, s2) => sweep post s2
                   | (Raise e, s2) => (Raise e, s2)
                   end).
  { unfold Lite.ping_registered_devices. rewrite Hreg.
    now rewrite LiteSpec.sweep_app, Hpre, LiteSpec.sweep_cons. }
  split.
  - intros o2 w2 Hcap Hping Hle.
    pose proof (check_ping_answered each s1 o2 w2 Hcap Hping Hle) as Hcheck.
    rewrite Hcheck in Hc3, Hrun. cbn [snd calls] in Hc3.
    split; [|exact Hrun].
    rewrite (LiteSpec.made_during_app s s' (ev1 ++ [EPing each] ++ ev3)).
    + rewrite !LiteSpec.calls_on_app, Ho1, Ho3, app_nil_r. cbn [app].
      unfold calls_on. rewrite filter_cons, filter_nil. cbn [subject].
      now destruct (decide (Some each = Some each)).
    + subst s'. unfold Lite.ping_registered_devices.
      rewrite Hreg, Hc3, Hc1, <- !app_assoc. reflexivity.
  - intros v o2 w2 Hcap Hread Hne.
    pose proof (check_name_differs each s1 v o2 w2 Hcap Hread Hne) as Hcheck.
    rewrite Hcheck in Hc3, Hrun. cbn [snd calls] in Hc3.
    split; [|exact Hrun].
    set (q := objectName_query _ _) in *.
    rewrite (LiteSpec.made_during_app s s' (ev1 ++ [ERead q] ++ ev3)).
    + now rewrite !LiteSpec.calls_on_app, Ho1, Ho3.
    + subst s'. unfold Lite.ping_registered_devices.
      rewrite Hreg, Hc3, Hc1, <- !app_assoc. reflexivity.
Qed.







End Sweep.

Lemma answering_device_is_left_alone_witness :
  let s' := snd (ping_registered_devices
                   (fun _ st => returns_at_once () st)
                   (fun _ _ => returns_at_once ()) (fun _ => returns_at_once ())
                   (fun _ _ => returns_at_once ())
                   (fun _ st => (Ret (PyStr "other"), st)) example_network) in
  calls_on 2 (made_during example_network s') = [EPing 2] /\
  calls_on 1 (made_during example_network s') = [].
Proof.
  cbv zeta.
  assert (Hnd : NoDup (registered_devices example_network)).
  { apply NoDup_cons. split; [|apply NoDup_singleton].
    intros Hin. apply list_elem_of_singleton in Hin. discriminate. }
  destruct (answering_device_is_left_alone
    (fun _ st => returns_at_once () st)
    (fun _ _ => returns_at_once ()) (fun _ => returns_at_once ())
    (fun _ _ => returns_at_once ())
    (fun _ (st : (oid -> device) * unit) => (Ret (PyStr "other"), st))
    [1%positive] 2%positive [] example_network
    (mkNetwork [1%positive; 2%positive] example_objects tt
       [ERead "2:5 device 5012 objectName"])
    eq_refl Hnd eq_refl) as [Hping _].
  destruct (answering_device_is_left_alone
    (fun _ st => returns_at_once () st)
    (fun _ _ => returns_at_once ()) (fun _ => returns_at_once ())
    (fun _ _ => returns_at_once ())
    (fun _ (st : (oid -> device) * unit) => (Ret (PyStr "other"), st))
    [] 1%positive [2%positive] example_network example_network
    eq_refl Hnd eq_refl) as [_ Hread].
  split.
  - apply (Hping example_objects tt); reflexivity.
  - apply (Hread (PyStr "other") example_objects tt); reflexivity.
Defined.


End LiteExtra.

(** * Properties of BasicScript.py *)

Module BasicScriptExtra.
Import BasicScript.

Section Stack.

Context {W : Type}.
Variable int : string -> option Z.
Variable uniform : Q -> Q -> W -> Q * W.
Variable perform : event -> W -> outcome unit * W.
Variable readMultiple : string -> W -> outcome (list Lite.pyvalue) * W.

Local Abbreviation int_of := (int_of int).
Local Abbreviation external := (external perform).
Local Abbreviation startApp_try := (startApp_try int perform).
Local Abbreviation startApp := (startApp int perform).
Local Abbreviation __init__ := (__init__ int uniform perform).
Local Abbreviation disconnect := (disconnect perform).
Local Abbreviation row_of := (row_of readMultiple).
Local Abbreviation devices_loop := (devices_loop readMultiple).
Context {F : Type}.
Variable DataFrame : list row -> outcome F.
Local Abbreviation devices := (devices readMultiple DataFrame).

(** The calls of a start that goes through. *)
Local Abbreviation start_sequence s n :=
  [LocalDeviceObject (localObjName s) (Boid s) n; ServicesSupported;
   ScriptApplication (localIPAddr s); enable_sleeping; Thread; Thread_start].

Ltac perform_step :=
  match goal with
  | |- context [perform ?e ?w] =>
      let r := fresh "r" in let w' := fresh "w" in
      destruct (perform e w) as [[[]|r] w']; cbn
  end.

Lemma startApp_try_runs (st : state W) :
  let r := startApp_try st in
  (exists made, calls (snd r) = calls st ++ made) /\
  Boid (self (snd r)) = Boid (self st) /\
  discoveredDevices (self (snd r)) = discoveredDevices (self st) /\
  _stopped (self (snd r)) = _stopped (self st) /\
  match fst r with
  | Ret _ =>
      exists n, int_of (maxAPDULengthAccepted (self st)) = Ret n /\
        calls (snd r) = calls st ++ start_sequence (self st) n /\
        _started (self (snd r)) = true /\
        _initialized (self (snd r)) = true /\
        this_device (self (snd r)) = Some () /\
        this_application (self (snd r)) = Some () /\
        t (self (snd r)) = Some ()
  | Raise e => _started (self (snd r)) = _started (self st)
  end.
Proof.
  unfold BasicScript.startApp_try, BasicScript._startAppThread, mbind, M_bind,
    bind, get, of_outcome, assign, BasicScript.external.
  cbn.
  destruct (int_of (maxAPDULengthAccepted (self st))) as [n|e]; cbn;
    [|repeat split; try reflexivity; exists []; now rewrite app_nil_r].
  repeat perform_step;
    try (repeat split; try reflexivity; eexists;
         rewrite <- ?app_assoc; reflexivity).
  repeat split; try reflexivity.
  - eexists. rewrite <- !app_assoc. reflexivity.
  - exists n. rewrite <- !app_assoc. cbn. tauto.
Qed.

Lemma startApp_state (st : state W) :
  snd (startApp st) = snd (startApp_try st) /\
  match fst (startApp_try st) with
  | Ret _ => fst (startApp st) = Ret ()
  | Raise e =>
      fst (startApp st) = if is_Exception e then Ret () else Raise e
  end.
Proof.
  unfold BasicScript.startApp, try_except, ret.
  destruct (startApp_try st) as [[[]|e] st']; cbn; [easy|].
  now destruct (is_Exception e).
Qed.

Lemma int_float_range (u : Q) :
  (0 <= u)%Q -> (u <= 1000)%Q -> (0 <= int_float u <= 1000)%Z.
Proof.
  destruct u as [p q]. unfold Qle, int_float. cbn. intros H0 H1.
  rewrite Z.quot_div_nonneg by lia. split.
  - apply Z.div_pos; lia.
  - apply Z.div_le_upper_bound; lia.
Qed.

Lemma int_of_is_Exception a e : int_of a = Raise e -> is_Exception e = true.
Proof.
  destruct a as [|z|str]; cbn; [now intros [= <-] | discriminate |].
  destruct (int str); [discriminate|]. now intros [= <-].
Qed.

(** X26. The constructor hands back a script unless [int(DeviceId)]
    raises or the stack raises something that is not an [Exception].  The
    device identifier of the script is [int(DeviceId)] when [DeviceId] is
    true, and lies between 3056177 and 3057177 otherwise: an identifier of 0
    cannot be asked for. *)
Theorem Boid_from_DeviceId (localIPAddr localObjName : string)
    (DeviceId maxAPDULengthAccepted : argument) (w : W) :
  (forall w0, (0 <= fst (uniform 0 1000 w0))%Q /\
              (fst (uniform 0 1000 w0) <= 1000)%Q) ->
  match __init__ localIPAddr localObjName DeviceId maxAPDULengthAccepted w with
  | (Ret s, _) =>
      if truthy DeviceId then int_of DeviceId = Ret (Boid s)
      else (3056177 <= Boid s <= 3057177)%Z
  | (Raise e, _) =>
      is_Exception e = false \/
      (truthy DeviceId = true /\ int_of DeviceId = Raise e)
  end.
Proof.
  intros Hu. unfold BasicScript.__init__, Boid_of.
  destruct (truthy DeviceId) eqn:Htruthy.
  - destruct (int_of DeviceId) as [boid|e] eqn:Hint; [|now right].
    set (st := mkState _ w []).
    destruct (startApp_try_runs st) as (_ & HB & _).
    destruct (startApp_state st) as [Hsnd Hfst]. rewrite <- Hsnd in HB.
    destruct (startApp_try st) as [[[]|e] st1]; cbn in Hfst;
      destruct (startApp st) as [r st2]; cbn in Hfst, HB; subst r.
    + now rewrite HB.
    + destruct (is_Exception e) eqn:He; [now rewrite HB | now left].
  - specialize (Hu w). destruct (uniform 0 1000 w) as [u w1]. cbn in Hu.
    pose proof (int_float_range u (proj1 Hu) (proj2 Hu)) as Hr.
    set (st := mkState _ w1 []).
    destruct (startApp_try_runs st) as (_ & HB & _).
    destruct (startApp_state st) as [Hsnd Hfst]. rewrite <- Hsnd in HB.
    destruct (startApp_try st) as [[[]|e] st1]; cbn in Hfst;
      destruct (startApp st) as [r st2]; cbn in Hfst, HB; subst r.
    + rewrite HB. lia.
    + destruct (is_Exception e) eqn:He; [rewrite HB; lia | now left].
Qed.

(** X27. [startApp] lets no [Exception] through, whatever fails while
    the device object, the application and the thread are made.  The flag
    [_started] is the only sign of success: when [startApp] has set it, the
    six calls of the start have been made, in their order, and the script is
    marked initialised and holds its application and its thread. *)
Theorem startApp_hides_failures (st : state W) :
  let st' := snd (startApp st) in
  (forall e, fst (startApp st) = Raise e -> is_Exception e = false) /\
  (_started (self st) = false -> _started (self st') = true ->
   fst (startApp st) = Ret () /\
   _initialized (self st') = true /\
   this_application (self st') = Some () /\
   t (self st') = Some () /\
   exists n, int_of (maxAPDULengthAccepted (self st)) = Ret n /\
     calls st' = calls st ++ start_sequence (self st) n).
Proof.
  destruct (startApp_try_runs st) as (_ & _ & _ & _ & Hrun).
  destruct (startApp_state st) as [Hsnd Hfst]. cbv zeta. rewrite Hsnd.
  destruct (fst (startApp_try st)) as [[]|e].
  - split; [intros e He; congruence|]. intros _ _.
    destruct Hrun as (n & Hint & Hcalls & _ & Hi & _ & Ha & Ht).
    repeat split; try assumption. now exists n.
  - split.
    + intros e' He'. rewrite Hfst in He'.
      destruct (is_Exception e) eqn:He; congruence.
    + intros H0 H1. congruence.
Qed.

(** X28. A constructor call whose [maxAPDULengthAccepted] cannot be read
    as an integer goes through all the same: the script is handed back
    without a call made on the stack, neither initialised nor started.  Its
    [disconnect] then raises [AttributeError], for want of an application,
    and leaves everything as it was. *)
Theorem unreadable_maxAPDULengthAccepted_is_silent
    (localIPAddr localObjName : string)
    (DeviceId maxAPDULengthAccepted : argument) (boid : Z) (w w1 : W) e :
  Boid_of int uniform DeviceId w = (Ret boid, w1) ->
  int_of maxAPDULengthAccepted = Raise e ->
  exists s,
    __init__ localIPAddr localObjName DeviceId maxAPDULengthAccepted w
    = (Ret s, (w1, [])) /\
    _initialized s = false /\ _started s = false /\
    forall w2 cs,
      disconnect (mkState s w2 cs) = (Raise AttributeError, mkState s w2 cs).
Proof.
  intros HB Hint. pose proof (int_of_is_Exception _ _ Hint) as He.
  eexists. unfold BasicScript.__init__. rewrite HB.
  unfold BasicScript.startApp, try_except, BasicScript.startApp_try, mbind,
    M_bind, bind, get, of_outcome. cbn. rewrite Hint, He. cbn.
  repeat split; reflexivity.
Qed.

(** X29. [disconnect] on a script that holds an application first closes
    the direct port, and closes the broadcast port exactly when closing the
    direct port raised, whatever was raised.  When it returns, the core has
    been stopped and the thread joined, and the script is marked stopped and
    not started. *)
Theorem disconnect_closes_one_port (st : state W) :
  this_application (self st) = Some () ->
  let st' := snd (disconnect st) in
  exists rest,
    calls st' = calls st ++ directPort_handle_close :: rest /\
    (broadcastPort_handle_close ∈ rest <->
     exists e, fst (perform directPort_handle_close (world st)) = Raise e) /\
    (fst (disconnect st) = Ret () ->
     _stopped (self st') = true /\ _started (self st') = false /\
     stopBacnetIPApp ∈ rest /\ Thread_join ∈ rest).
Proof.
  intros Happ.
  unfold BasicScript.disconnect, try_except, mbind, M_bind, bind, attribute,
    assign, BasicScript.external.
  rewrite Happ. cbn.
  destruct (perform directPort_handle_close (world st)) as [[[]|e0] w1]; cbn.
  - assert (Hiff : forall rest : list event,
              broadcastPort_handle_close ∉ rest ->
              broadcastPort_handle_close ∈ rest <->
              exists e : exn, @Ret unit () = Raise e).
    { intros rest Hnot. split; [tauto | intros [? ?]; discriminate]. }
    destruct (perform stopBacnetIPApp w1) as [[[]|e1] w2]; cbn;
      [destruct (t (self st)) as [[]|]; cbn;
       [destruct (perform Thread_join w2) as [[[]|e2] w3]; cbn|]|];
      (eexists; split; [rewrite <- ?app_assoc; reflexivity|]); cbn [app];
      (split; [apply Hiff; rewrite ?not_elem_of_cons;
               repeat split; (discriminate || apply not_elem_of_nil)|]);
      try discriminate.
    intros _. rewrite !elem_of_cons. tauto.
  - rewrite Happ. cbn.
    assert (Hiff : forall rest : list event,
              broadcastPort_handle_close ∈ broadcastPort_handle_close :: rest
              <-> exists e : exn, @Raise unit e0 = Raise e).
    { intros rest. split; [eauto | intros _; apply list_elem_of_here]. }
    destruct (perform broadcastPort_handle_close w1) as [[[]|e1] w2]; cbn;
      [destruct (perform stopBacnetIPApp w2) as [[[]|e2] w3]; cbn;
       [destruct (t (self st)) as [[]|]; cbn;
        [destruct (perform Thread_join w3) as [[[]|e3] w4]; cbn|]|]|];
      (eexists; split; [rewrite <- ?app_assoc; reflexivity|]); cbn [app];
      (split; [apply Hiff|]); try discriminate.
    intros _. rewrite !elem_of_cons. tauto.
Qed.

Local Abbreviation query device :=
  (fst device +:+ " device " +:+ pretty (snd device)
   +:+ " objectName vendorName").
Local Abbreviation origin :=
  (fun r : row => (snd (fst r), snd r)).

Lemma row_of_answers (device : string * Z) (st : state W) :
  (forall q w e, fst (readMultiple q w) = Raise e ->
     e = NoResponseFromController) ->
  (forall q w v, fst (readMultiple q w) = Ret v -> length v = 2) ->
  exists r,
    fst (row_of device st) = Ret r /\
    (forall x, r = Some x -> origin x = device) /\
    self (snd (row_of device st)) = self st /\
    calls (snd (row_of device st))
    = calls st ++ [readMultiple_of (query device)].
Proof.
  intros Hraise Hpair. unfold BasicScript.row_of, try_except, ret.
  pose proof (Hraise (query device) (world st)) as He.
  pose proof (Hpair (query device) (world st)) as Hv.
  destruct (readMultiple (query device) (world st)) as [[v|e] w1]; cbn in *.
  - specialize (Hv v eq_refl).
    destruct v as [|dn [|vn [|? ?]]]; try discriminate. cbn.
    eexists. repeat split. intros x [= <-]. now destruct device.
  - rewrite (He e eq_refl). cbn. exists None. repeat split. discriminate.
Qed.

Lemma devices_loop_rows (l : list (string * Z)) :
  (forall q w e, fst (readMultiple q w) = Raise e ->
     e = NoResponseFromController) ->
  (forall q w v, fst (readMultiple q w) = Ret v -> length v = 2) ->
  forall lst (st : state W), exists new,
    fst (devices_loop l lst st) = Ret (lst ++ new) /\
    origin <$> new `sublist_of` l /\
    self (snd (devices_loop l lst st)) = self st /\
    calls (snd (devices_loop l lst st))
    = calls st ++ ((fun d => readMultiple_of (query d)) <$> l).
Proof.
  intros Hraise Hpair.
  induction l as [|device l IH]; intros lst st; cbn [BasicScript.devices_loop].
  - exists []. cbn. now rewrite !app_nil_r.
  - unfold mbind, M_bind, bind.
    destruct (row_of_answers device st Hraise Hpair)
      as (r & Hfst & Horigin & Hself & Hcalls).
    destruct (row_of device st) as [r0 st1]. cbn in Hfst, Hself, Hcalls.
    subst r0.
    destruct (IH (match r with Some x => lst ++ [x] | None => lst end) st1)
      as (new & Hfst' & Hsub & Hself' & Hcalls').
    rewrite Hfst', Hself', Hcalls', Hself, Hcalls, <- app_assoc.
    destruct r as [x|].
    + exists (x :: new). rewrite <- app_assoc. repeat split.
      rewrite fmap_cons, (Horigin x eq_refl). now apply sublist_skip.
    + exists new. repeat split. now apply sublist_cons.
Qed.

(** X30. [devices] cannot be used on a script as the constructor leaves
    it: it raises [TypeError] before any reading, [discoveredDevices] being
    [None].  Once devices have been discovered, and when [readMultiple]
    either hands back two values or raises [NoResponseFromController],
    [devices] asks each discovered device once, in the order of discovery,
    and what it returns or raises is what pandas makes of the rows handed to
    it: rows of discovered devices, at most one for each, in the order of
    discovery, each with the address and the instance of its device.  The
    order of the rows in the frame returned is that of pandas, which sorts
    them by address. *)
Theorem devices_needs_discovery :
  (forall localIPAddr localObjName DeviceId maxAPDULengthAccepted w s out,
     __init__ localIPAddr localObjName DeviceId maxAPDULengthAccepted w
     = (Ret s, out) ->
     forall w2 cs,
       devices (mkState s w2 cs) = (Raise TypeError, mkState s w2 cs)) /\
  (forall (st : state W) l,
     discoveredDevices (self st) = Some l ->
     (forall q w e, fst (readMultiple q w) = Raise e ->
        e = NoResponseFromController) ->
     (forall q w v, fst (readMultiple q w) = Ret v -> length v = 2) ->
     exists lst,
       fst (devices st) = DataFrame lst /\
       origin <$> lst `sublist_of` l /\
       self (snd (devices st)) = self st /\
       calls (snd (devices st))
       = calls st ++ ((fun d => readMultiple_of (query d)) <$> l)).
Proof.
  split.
  - intros localIPAddr localObjName DeviceId maxAPDU w s out Hinit w2 cs.
    assert (Hnone : discoveredDevices s = None).
    { unfold BasicScript.__init__ in Hinit.
      destruct (Boid_of int uniform DeviceId w) as [[boid|e] w1];
        [|discriminate].
      set (st := mkState _ w1 []) in Hinit.
      destruct (startApp_try_runs st) as (_ & _ & HD & _).
      destruct (startApp_state st) as [Hsnd _]. rewrite <- Hsnd in HD.
      destruct (startApp st) as [[[]|e] st2]; [|discriminate].
      injection Hinit as <- _. exact HD. }
    unfold BasicScript.devices, mbind, M_bind, bind, get, raise. cbn.
    now rewrite Hnone.
  - intros st l Hl Hraise Hpair.
    unfold BasicScript.devices, mbind, M_bind, bind, get, of_outcome. cbn.
    rewrite Hl.
    destruct (devices_loop_rows l Hraise Hpair [] st)
      as (new & Hfst & Hsub & Hself & Hcalls).
    destruct (devices_loop l [] st) as [r st1]. cbn in Hfst, Hself, Hcalls.
    subst r. exists new. cbn. now rewrite Hself, Hcalls.
Qed.

End Stack.

Lemma Boid_from_DeviceId_witness :
  match __init__ Lite.example_int midpoint quiet_stack "127.0.0.1" "BAC0"
          (ArgInt 0) (ArgStr "1024") () with
  | (Ret s, _) => (3056177 <= Boid s <= 3057177)%Z
  | (Raise _, _) => False
  end.
Proof.
  assert (Hu : forall w0 : unit,
            (0 <= fst (midpoint 0 1000 w0))%Q /\
            (fst (midpoint 0 1000 w0) <= 1000)%Q).
  { intros w0. split; vm_compute; discriminate. }
  exact (Boid_from_DeviceId Lite.example_int midpoint quiet_stack
           "127.0.0.1" "BAC0" (ArgInt 0) (ArgStr "1024") () Hu).
Defined.

Lemma startApp_hides_failures_witness :
  let st := mkState (mkScript false false false "127.0.0.1" "BAC0" 4000
                       (ArgStr "1024") None None None None) () [] in
  fst (startApp Lite.example_int no_socket st) = Ret () /\
  calls (snd (startApp Lite.example_int quiet_stack st))
  = [LocalDeviceObject "BAC0" 4000 1024; ServicesSupported;
     ScriptApplication "127.0.0.1"; enable_sleeping; Thread; Thread_start].
Proof.
  cbv zeta. split.
  - reflexivity.
  - destruct (startApp_hides_failures Lite.example_int quiet_stack
                (mkState (mkScript false false false "127.0.0.1" "BAC0" 4000
                            (ArgStr "1024") None None None None) () []))
      as [_ Hstarted].
    destruct (Hstarted eq_refl eq_refl) as (_ & _ & _ & _ & n & Hn & Hcalls).
    vm_compute in Hn. injection Hn as <-. exact Hcalls.
Defined.

Lemma unreadable_maxAPDULengthAccepted_is_silent_witness :
  exists s,
    __init__ Lite.example_int midpoint quiet_stack "127.0.0.1" "BAC0"
      (ArgInt 4000) (ArgStr "1 ko") ()
    = (Ret s, ((), [])) /\
    _started s = false /\
    fst (disconnect quiet_stack (mkState s () [])) = Raise AttributeError.
Proof.
  destruct (unreadable_maxAPDULengthAccepted_is_silent Lite.example_int
              midpoint quiet_stack "127.0.0.1" "BAC0" (ArgInt 4000)
              (ArgStr "1 ko") 4000 () () Lite.ValueError eq_refl eq_refl)
    as (s & Hinit & _ & Hstarted & Hdisconnect).
  exists s. split; [exact Hinit|]. split; [exact Hstarted|].
  now rewrite Hdisconnect.
Defined.

Lemma disconnect_closes_one_port_witness :
  exists rest,
    calls (snd (disconnect direct_port_closed (mkState example_script () [])))
    = directPort_handle_close :: rest /\
    broadcastPort_handle_close ∈ rest.
Proof.
  destruct (disconnect_closes_one_port direct_port_closed
              (mkState example_script () []) eq_refl)
    as (rest & Hcalls & Hiff & _).
  exists rest. split; [exact Hcalls|]. apply Hiff. eexists. reflexivity.
Defined.

Lemma devices_needs_discovery_witness :
  (exists s,
     fst (__init__ Lite.example_int midpoint quiet_stack "127.0.0.1" "BAC0"
            ArgNone (ArgStr "1024") ()) = Ret s /\
     fst (devices one_answers rows_by_address (mkState s () []))
     = Raise TypeError) /\
  exists lst,
    fst (devices one_answers rows_by_address (mkState example_script () []))
    = rows_by_address lst /\
    (fun r : row => (snd (fst r), snd r)) <$> lst
      `sublist_of` [("2:6", 5011%Z); ("2:5", 5012%Z)] /\
    fst (devices both_answer rows_by_address (mkState example_script () []))
    = Ret [(Lite.PyStr "2:5 device 5012 objectName vendorName",
            Lite.PyStr "ACME", "2:5", 5012%Z);
           (Lite.PyStr "2:6 device 5011 objectName vendorName",
            Lite.PyStr "ACME", "2:6", 5011%Z)].
Proof.
  destruct (devices_needs_discovery Lite.example_int midpoint quiet_stack
              one_answers rows_by_address) as [Hfresh Hrows].
  split.
  - destruct (__init__ Lite.example_int midpoint quiet_stack "127.0.0.1"
                "BAC0" ArgNone (ArgStr "1024") ()) as [[s|e] out] eqn:Hinit;
      [|vm_compute in Hinit; discriminate].
    exists s. split; [reflexivity|]. now rewrite (Hfresh _ _ _ _ _ _ _ Hinit).
  - destruct (Hrows (mkState example_script () [])
                [("2:6", 5011%Z); ("2:5", 5012%Z)] eq_refl)
      as (lst & Hfst & Hsub & _).
    + intros q w e. unfold one_answers. case_bool_decide; cbn; congruence.
    + intros q w v. unfold one_answers. case_bool_decide; cbn; [|discriminate].
      now intros [= <-].
    + exists lst. split; [assumption|]. split; [assumption|reflexivity].
Defined.

End BasicScriptExtra.
